(** * Recurring expense detection: a shallow embedding of
      [SpendingTracker/Services/RecurringExpenseDetector.swift]

    The Swift class [RecurringExpenseDetector] is rendered function by
    function.  Conventions of the embedding:

    - [Double], [TimeInterval] and [Date] are IEEE 754 binary64 numbers
      (Rocq's primitive floats); a [Date] is its number of seconds since
      the reference date, as in Foundation.
    - A Swift [String] is a Rocq [string]: the sequence of its
      [Character]s ([Array(str)], [str.count]), here ASCII characters, on
      which [==] compares character by character.
    - [Expense] is a managed object: expenses live in a store of objects
      and are passed around by reference ([ExpenseRef]).
    - A Swift runtime trap (a range whose upper bound lies below its
      lower bound) is the outcome [Traps].
    - [UUID()] draws the next value of the system's identifier source;
      [Date()] reads the clock, one reading serving a whole call of the
      detector; [Calendar.current] is a parameter.
    - [await MainActor.run] runs its block: calls do not interleave. *)

From Stdlib Require Import ZArith NArith List Bool Ascii String Floats Uint63 Lia.
Import ListNotations.

Set Warnings "-inexact-float".

(** ** Outcomes of code that may trap *)

Inductive Outcome (A : Type) : Type :=
| Returns (a : A)
| Traps.
Arguments Returns {A} a.
Arguments Traps {A}.

Definition bind {A B : Type} (m : Outcome A) (k : A -> Outcome B) : Outcome B :=
  match m with
  | Returns a => k a
  | Traps => Traps
  end.

Notation "x <- m ;; k" := (bind m (fun x => k))
  (at level 61, m at next level, right associativity).

(** [filter] with a predicate that may trap, left to right. *)
Fixpoint filterM {A : Type} (p : A -> Outcome bool) (l : list A) : Outcome (list A) :=
  match l with
  | [] => Returns []
  | x :: rest =>
      keep <- p x ;;
      kept <- filterM p rest ;;
      Returns (if keep then x :: kept else kept)
  end.

(** ** Data model *)

Definition Double := float.
Definition TimeInterval := float.
Definition Date := float.
Definition UUID := N.
Definition ExpenseRef := nat.

(** [Double(n)] for an [Int] that counts the elements of a collection
    (a count stays far below 2^63). *)
Definition Double_of_Int (n : nat) : Double :=
  PrimFloat.of_uint63 (Uint63.of_Z (Z.of_nat n)).

(** [==] on optionals of an [Equatable] type. *)
Definition optional_eqb {A : Type} (eqb : A -> A -> bool) (x y : option A) : bool :=
  match x, y with
  | Some a, Some b => eqb a b
  | None, None => true
  | _, _ => false
  end.

(** The nil-coalescing operator [??]. *)
Definition coalesce {A : Type} (x : option A) (d : A) : A :=
  match x with
  | Some a => a
  | None => d
  end.

(** The attributes of the Core Data entity [Expense] that the detector
    reads; [title], [category] and [date] are optional, as the code
    unwraps them, and so is [id], as Core Data attributes are unless the
    model says otherwise. *)
Module Expense.
Record t : Type := make {
  id : option UUID;
  amount : Double;
  title : option string;
  category : option string;
  date : option Date;
  isRecurring : bool
}.

Definition setRecurring (e : t) (flag : bool) : t :=
  make (id e) (amount e) (title e) (category e) (date e) flag.
End Expense.

Inductive RecurringFrequency : Type :=
| daily | weekly | biweekly | monthly | quarterly | yearly | unknown.

Module RecurringPattern.
Record t : Type := make {
  id : UUID;
  title : string;
  category : string;
  averageAmount : Double;
  frequency : RecurringFrequency;
  confidence : Double;
  lastOccurrence : Date;
  nextPredicted : option Date
}.
End RecurringPattern.

Module RecurringSuggestion.
Record t : Type := make {
  id : UUID;
  expense : ExpenseRef;
  pattern : RecurringPattern.t;
  confidence : Double
}.
End RecurringSuggestion.

(** The two published properties of the detector. *)
Record RecurringExpenseDetector : Type := mkDetector {
  detectedPatterns : list RecurringPattern.t;
  suggestions : list RecurringSuggestion.t
}.

(** The objects the detector works on and the identifiers drawn so far. *)
Definition Store := ExpenseRef -> Expense.t.

Record World : Type := mkWorld {
  objects : Store;
  detector : RecurringExpenseDetector;
  drawn : nat
}.

(** ** Swift standard library functions on [Comparable] values *)

(** [max(x, y)] is [y >= x ? y : x]. *)
Definition max_Double (x y : Double) : Double :=
  if PrimFloat.leb x y then y else x.

(** [min(a, b, c)] on [Int]. *)
Definition min3 (a b c : nat) : nat := Nat.min (Nat.min a b) c.

(** ** Similarity scorer *)

(** One pass of the inner loop [for j in 1...n], for the row of the
    character [c]: [above] is the row [dp[i-1][j-1...]] and [left] is
    [dp[i][j-1]]; the result is [dp[i][j...]]. *)
Fixpoint fillRow (c : ascii) (str2Array : list ascii) (above : list nat)
    (left : nat) : list nat :=
  match str2Array, above with
  | d :: str2Rest, diag :: ((up :: _) as aboveRest) =>
      let cell :=
        if Ascii.eqb c d then diag else 1 + min3 up left diag in
      cell :: fillRow c str2Rest aboveRest cell
  | _, _ => []
  end.

(** The outer loop [for i in 1...m]: [row] is [dp[i-1]], [i] the index
    of the row being filled. *)
Fixpoint fillTable (str1Array str2Array : list ascii) (i : nat)
    (row : list nat) : list nat :=
  match str1Array with
  | [] => row
  | c :: str1Rest =>
      fillTable str1Rest str2Array (S i) (i :: fillRow c str2Array row i)
  end.

(** [1...m] and [1...n] are ranges only when [m] and [n] are at least 1. *)
Definition levenshteinDistance (str1 str2 : string) : Outcome nat :=
  let str1Array := list_ascii_of_string str1 in
  let str2Array := list_ascii_of_string str2 in
  let m := List.length str1Array in
  let n := List.length str2Array in
  if (m =? 0)%nat || (n =? 0)%nat then Traps
  else Returns (last (fillTable str1Array str2Array 1 (seq 0 (S n))) 0%nat).

Definition isEmpty (s : string) : bool := (String.length s =? 0)%nat.

Definition stringSimilarity (str1 str2 : string) : Outcome Double :=
  if negb (negb (isEmpty str1) && negb (isEmpty str2)) then
    Returns (if isEmpty str1 && isEmpty str2 then 1.0%float else 0.0%float)
  else
    let longer := if (String.length str2 <? String.length str1)%nat then str1 else str2 in
    let shorter := if (String.length str2 <? String.length str1)%nat then str2 else str1 in
    editDistance <- levenshteinDistance shorter longer ;;
    Returns (1.0 - Double_of_Int editDistance / Double_of_Int (String.length longer))%float.

(** The three [let]-bound terms of [calculateSimilarity]. *)
Definition amountSimilarity (amount1 amount2 : Double) : Double :=
  let amountDifference := PrimFloat.abs (amount1 - amount2) in
  let maxAmount := max_Double amount1 amount2 in
  (if PrimFloat.ltb 0 maxAmount then 1 - amountDifference / maxAmount else 1)%float.

Definition titleSimilarity (title1 title2 : option string) : Outcome Double :=
  stringSimilarity (coalesce title1 EmptyString) (coalesce title2 EmptyString).

Definition categorySimilarity (category1 category2 : option string) : Double :=
  if optional_eqb String.eqb category1 category2 then 1.0%float else 0.0%float.

Definition amountWeight : Double := 0.4%float.
Definition titleWeight : Double := 0.35%float.
Definition categoryWeight : Double := 0.25%float.

Definition calculateSimilarity (expense1 expense2 : Expense.t) : Outcome Double :=
  let similarityScore := 0%float in
  let totalWeight := 0%float in
  let similarityScore :=
    (similarityScore
     + amountSimilarity (Expense.amount expense1) (Expense.amount expense2) * amountWeight)%float in
  let totalWeight := (totalWeight + amountWeight)%float in
  titleSim <- titleSimilarity (Expense.title expense1) (Expense.title expense2) ;;
  let similarityScore := (similarityScore + titleSim * titleWeight)%float in
  let totalWeight := (totalWeight + titleWeight)%float in
  let similarityScore :=
    (similarityScore
     + categorySimilarity (Expense.category expense1) (Expense.category expense2)
       * categoryWeight)%float in
  let totalWeight := (totalWeight + categoryWeight)%float in
  Returns (if PrimFloat.ltb 0 totalWeight then similarityScore / totalWeight else 0)%float.

Definition threshold : Double := 0.8%float.

Definition findSimilarExpenses (heap : Store) (expense : ExpenseRef)
    (allExpenses : list ExpenseRef) : Outcome (list ExpenseRef) :=
  filterM (fun otherExpense =>
    if optional_eqb N.eqb (Expense.id (heap otherExpense)) (Expense.id (heap expense))
    then Returns false
    else
      similarity <- calculateSimilarity (heap expense) (heap otherExpense) ;;
      Returns (PrimFloat.leb threshold similarity)) allExpenses.

(** ** Temporal analyzer *)

(** [intervals.reduce(0, +)]. *)
Definition reduce_add (values : list Double) : Double :=
  fold_left PrimFloat.add values 0%float.

(** Foundation's [pow(x, 2)]: the square, rounded once. *)
Definition pow_2 (x : Double) : Double := (x * x)%float.

(** The pattern match [a..<b ~= x] and [a...b ~= x] of the [switch]. *)
Definition inHalfOpenRange (a b x : Double) : bool :=
  PrimFloat.leb a x && PrimFloat.ltb x b.
Definition inClosedRange (a b x : Double) : bool :=
  PrimFloat.leb a x && PrimFloat.leb x b.

Definition secondsPerDay : Double := (24 * 60 * 60)%float.

Definition averageOf (intervals : list TimeInterval) : Double :=
  (reduce_add intervals / Double_of_Int (List.length intervals))%float.

Definition frequencyOfDays (dayInterval : Double) : RecurringFrequency :=
  (if inHalfOpenRange 0 2 dayInterval then daily
   else if inClosedRange 6 8 dayInterval then weekly
   else if inClosedRange 13 17 dayInterval then biweekly
   else if inClosedRange 28 32 dayInterval then monthly
   else if inClosedRange 88 95 dayInterval then quarterly
   else if inClosedRange 360 370 dayInterval then yearly
   else unknown)%float.

Definition determineFrequency (intervals : list TimeInterval)
    : RecurringFrequency * Double :=
  match intervals with
  | [] => (unknown, 0.0%float)
  | _ :: _ =>
      let averageInterval := averageOf intervals in
      let dayInterval := (averageInterval / secondsPerDay)%float in
      let variance :=
        (reduce_add (map (fun x => pow_2 (x - averageInterval)) intervals)
         / Double_of_Int (List.length intervals))%float in
      let standardDeviation := PrimFloat.sqrt variance in
      let coefficientOfVariation := (standardDeviation / averageInterval)%float in
      let confidence := max_Double 0.0%float (1.0 - coefficientOfVariation)%float in
      let frequency := frequencyOfDays dayInterval in
      (frequency, confidence)
  end.

(** ** Pattern builder *)

(** [sorted(by:)], as a stable insertion sort.  Where the comparison does
    not separate two elements their order is the algorithm's own; the
    properties below do not depend on it. *)
Fixpoint insertSorted {A : Type} (areInIncreasingOrder : A -> A -> bool)
    (x : A) (l : list A) : list A :=
  match l with
  | [] => [x]
  | y :: rest =>
      if areInIncreasingOrder y x then y :: insertSorted areInIncreasingOrder x rest
      else x :: y :: rest
  end.

Definition sorted {A : Type} (areInIncreasingOrder : A -> A -> bool)
    (l : list A) : list A :=
  fold_right (insertSorted areInIncreasingOrder) [] l.

(** [Array.last]. *)
Definition lastOf {A : Type} (l : list A) : option A :=
  match l with
  | [] => None
  | x :: rest => Some (last rest x)
  end.

(** The components [Calendar.date(byAdding:value:to:)] is called with. *)
Inductive CalendarComponent : Type := day | month | year.

Definition Calendar := CalendarComponent -> Z -> Date -> option Date.

Section Detector.

(** [Calendar.current], the identifier source behind [UUID()] and the
    reading of the clock behind [Date()]. *)
Variable calendar : Calendar.
Variable uuidSource : nat -> UUID.
Variable now : Date.

Definition newUUID (w : World) : UUID * World :=
  (uuidSource (drawn w), mkWorld (objects w) (detector w) (S (drawn w))).

Section Reading.

Variable heap : Store.

Definition dateOf (e : ExpenseRef) : option Date := Expense.date (heap e).

Fixpoint intervalsFrom (previous : ExpenseRef) (rest : list ExpenseRef)
    : list TimeInterval :=
  match rest with
  | [] => []
  | current :: rest' =>
      match dateOf previous, dateOf current with
      | Some prevDate, Some currentDate =>
          (currentDate - prevDate)%float :: intervalsFrom current rest'
      | _, _ => intervalsFrom current rest'
      end
  end.

(** [1..<expenses.count] is a range only when the count is at least 1. *)
Definition calculateIntervals (expenses : list ExpenseRef)
    : Outcome (list TimeInterval) :=
  match expenses with
  | [] => Traps
  | first :: rest => Returns (intervalsFrom first rest)
  end.

Definition calculateAverageAmount (expenses : list ExpenseRef) : Double :=
  let total :=
    fold_left (fun acc e => (acc + Expense.amount (heap e))%float) expenses 0%float in
  (total / Double_of_Int (List.length expenses))%float.

(** The optional chain [expenses.last?.date]. *)
Definition lastDateOf (expenses : list ExpenseRef) : option Date :=
  match lastOf expenses with
  | None => None
  | Some lastExpense => dateOf lastExpense
  end.

Definition predictNextOccurrence (expenses : list ExpenseRef)
    (frequency : RecurringFrequency) : option Date :=
  match lastDateOf expenses with
  | None => None
  | Some lastDate =>
      match frequency with
      | daily => calendar day 1%Z lastDate
      | weekly => calendar day 7%Z lastDate
      | biweekly => calendar day 14%Z lastDate
      | monthly => calendar month 1%Z lastDate
      | quarterly => calendar month 3%Z lastDate
      | yearly => calendar year 1%Z lastDate
      | unknown => None
      end
  end.

Definition byDate (a b : ExpenseRef) : bool :=
  PrimFloat.ltb (coalesce (dateOf a) now) (coalesce (dateOf b) now).

End Reading.

Definition minimumConfidence : Double := 0.6%float.

Definition detectPattern (w : World) (expense : ExpenseRef)
    (similarExpenses : list ExpenseRef)
    : Outcome (option RecurringPattern.t * World) :=
  let heap := objects w in
  let allExpenses := [expense] ++ similarExpenses in
  let sortedExpenses := sorted (byDate heap) allExpenses in
  if (List.length sortedExpenses <? 2)%nat then Returns (None, w)
  else
    intervals <- calculateIntervals heap sortedExpenses ;;
    let '(frequency, confidence) := determineFrequency intervals in
    if negb (PrimFloat.ltb minimumConfidence confidence) then Returns (None, w)
    else
      let '(patternId, w') := newUUID w in
      Returns
        (Some (RecurringPattern.make
                 patternId
                 (coalesce (Expense.title (heap expense)) "Unknown"%string)
                 (coalesce (Expense.category (heap expense)) "Other"%string)
                 (calculateAverageAmount heap sortedExpenses)
                 frequency
                 confidence
                 (coalesce (lastDateOf heap sortedExpenses) now)
                 (predictNextOccurrence heap sortedExpenses frequency)),
         w').

(** ** Suggestion registry *)

Definition analyzeExpenseForPatterns (expense : ExpenseRef)
    (allExpenses : list ExpenseRef) (w : World) : Outcome World :=
  similarExpenses <- findSimilarExpenses (objects w) expense allExpenses ;;
  if (2 <=? List.length similarExpenses)%nat then
    found <- detectPattern w expense similarExpenses ;;
    match found with
    | (Some pattern, w1) =>
        let known := detectedPatterns (detector w1) in
        let patterns :=
          if existsb (fun p => N.eqb (RecurringPattern.id p) (RecurringPattern.id pattern))
               known
          then known else known ++ [pattern] in
        if negb (Expense.isRecurring (objects w1 expense)) then
          let '(suggestionId, w2) := newUUID w1 in
          let suggestion :=
            RecurringSuggestion.make suggestionId expense pattern
              (RecurringPattern.confidence pattern) in
          Returns (mkWorld (objects w2)
                     (mkDetector patterns (suggestions (detector w2) ++ [suggestion]))
                     (drawn w2))
        else
          Returns (mkWorld (objects w1)
                     (mkDetector patterns (suggestions (detector w1)))
                     (drawn w1))
    | (None, w1) => Returns w1
    end
  else Returns w.

End Detector.

Definition getSuggestedRecurring (d : RecurringExpenseDetector)
    (expenses : list ExpenseRef) : list ExpenseRef :=
  map RecurringSuggestion.expense (suggestions d).

(** [suggestions.removeAll { ... }] keeps the elements the closure rejects. *)
Definition removeAll {A : Type} (shouldBeRemoved : A -> bool) (l : list A) : list A :=
  filter (fun x => negb (shouldBeRemoved x)) l.

Definition markAsRecurring (expense : ExpenseRef) (w : World) : World :=
  let heap := objects w in
  let kept :=
    removeAll (fun s =>
      optional_eqb N.eqb (Expense.id (heap (RecurringSuggestion.expense s)))
        (Expense.id (heap expense))) (suggestions (detector w)) in
  mkWorld
    (fun r => if (r =? expense)%nat then Expense.setRecurring (heap r) true else heap r)
    (mkDetector (detectedPatterns (detector w)) kept)
    (drawn w).

Definition dismissSuggestion (suggestion : RecurringSuggestion.t)
    (d : RecurringExpenseDetector) : RecurringExpenseDetector :=
  mkDetector (detectedPatterns d)
    (removeAll (fun s => N.eqb (RecurringSuggestion.id s) (RecurringSuggestion.id suggestion))
       (suggestions d)).

(** ** A calendar to run the detector with

    The proleptic Gregorian calendar in UTC: a day has 86400 seconds; a
    month or a year is added to the civil date, the day of the month
    clamped to the length of the target month, the time of day kept. *)
Module GregorianUTC.

Local Open Scope Z_scope.

(** The whole seconds of a date, rounded down. *)
Definition wholeSeconds (t : Date) : Z :=
  match Prim2SF t with
  | S754_finite s m e => Z.shiftl (cond_Zopp s (Zpos m)) e
  | _ => 0
  end.

Definition Double_of_Z (z : Z) : Double :=
  if z <? 0 then PrimFloat.opp (PrimFloat.of_uint63 (Uint63.of_Z (- z)))
  else PrimFloat.of_uint63 (Uint63.of_Z z).

(** Days between 0000-03-01 and the reference date 2001-01-01. *)
Definition referenceDay : Z := 730791.

Definition civilOfDay (z : Z) : Z * Z * Z :=
  let z := z + referenceDay in
  let era := z / 146097 in
  let doe := z - era * 146097 in
  let yoe := (doe - doe / 1460 + doe / 36524 - doe / 146096) / 365 in
  let doy := doe - (365 * yoe + yoe / 4 - yoe / 100) in
  let mp := (5 * doy + 2) / 153 in
  let d := doy - (153 * mp + 2) / 5 + 1 in
  let m := if mp <? 10 then mp + 3 else mp - 9 in
  let y := yoe + era * 400 + (if m <=? 2 then 1 else 0) in
  (y, m, d).

Definition dayOfCivil (y m d : Z) : Z :=
  let y := if m <=? 2 then y - 1 else y in
  let era := y / 400 in
  let yoe := y - era * 400 in
  let doy := (153 * (if 2 <? m then m - 3 else m + 9) + 2) / 5 + d - 1 in
  let doe := yoe * 365 + yoe / 4 - yoe / 100 + doy in
  era * 146097 + doe - referenceDay.

Definition isLeapYear (y : Z) : bool :=
  ((y mod 4 =? 0) && negb (y mod 100 =? 0)) || (y mod 400 =? 0).

Definition daysInMonth (y m : Z) : Z :=
  if m =? 2 then (if isLeapYear y then 29 else 28)
  else if (m =? 4) || (m =? 6) || (m =? 9) || (m =? 11) then 30
  else 31.

Definition addingMonths (n : Z) (t : Date) : Date :=
  let z := wholeSeconds t / 86400 in
  let '(y, m, d) := civilOfDay z in
  let months := y * 12 + (m - 1) + n in
  let y' := months / 12 in
  let m' := months mod 12 + 1 in
  let d' := Z.min d (daysInMonth y' m') in
  (t + Double_of_Z ((dayOfCivil y' m' d' - z) * 86400))%float.

Definition calendar : Calendar :=
  fun component value t =>
    match component with
    | day => Some (t + Double_of_Z (value * 86400))%float
    | month => Some (addingMonths value t)
    | year => Some (addingMonths (12 * value) t)
    end.

End GregorianUTC.

(** ** Objects for the scenarios

    Four occurrences of one subscription, 30 days apart from the
    reference date on, and two blank records. *)
Module Scenario.

Definition secondsOfDays (n : Z) : Date := GregorianUTC.Double_of_Z (n * 86400).

Definition netflix (identifier : N) (dayNumber : Z) : Expense.t :=
  Expense.make (Some identifier) 93.0%float (Some "Netflix"%string)
    (Some "Entertainment"%string) (Some (secondsOfDays dayNumber)) false.

Definition blank (identifier : N) : Expense.t :=
  Expense.make (Some identifier) 0%float (Some EmptyString) None None false.

Definition heap : Store :=
  fun r =>
    match r with
    | 0%nat => netflix 100 0
    | 1%nat => netflix 101 30
    | 2%nat => netflix 102 60
    | 3%nat => netflix 103 90
    | 4%nat => blank 104
    | _ => blank 105
    end.

Definition uuidSource (n : nat) : UUID := N.of_nat n.

(** The clock at the time of the calls: day 100 after the reference date. *)
Definition now : Date := secondsOfDays 100.

Definition emptyDetector : RecurringExpenseDetector := mkDetector [] [].

Definition world : World := mkWorld heap emptyDetector 0.

Definition analyze (expense : ExpenseRef) (allExpenses : list ExpenseRef)
    (w : World) : Outcome World :=
  analyzeExpenseForPatterns GregorianUTC.calendar uuidSource now expense allExpenses w.

(** The pattern of the first three occurrences: monthly, last seen on day
    60 (2 March), next expected on day 91 (2 April). *)
Definition pattern : RecurringPattern.t :=
  RecurringPattern.make 0%N "Netflix"%string "Entertainment"%string 93.0%float
    monthly 1.0%float (secondsOfDays 60) (Some (secondsOfDays 91)).

Definition suggestion : RecurringSuggestion.t :=
  RecurringSuggestion.make 1%N 2%nat pattern 1.0%float.

End Scenario.

(** ** Definitions the statements are written with *)

(** The distance the table of [levenshteinDistance] tabulates, on the
    prefixes of the two strings read backwards: [dp[i][j]] is
    [editDistance] of the first [i] characters of [str1] and the first
    [j] characters of [str2], both reversed. *)
Fixpoint editDistance (x : list ascii) : list ascii -> nat :=
  fix against (y : list ascii) : nat :=
    match x, y with
    | [], _ => List.length y
    | _, [] => List.length x
    | a :: x', b :: y' =>
        if Ascii.eqb a b then editDistance x' y'
        else 1 + min3 (editDistance x' y) (against y') (editDistance x' y')
    end.

(** The row of the table for the prefix [x]: its entries from the column
    of the prefix [y] on, [rest] being the characters still to come. *)
Fixpoint rowOf (x y rest : list ascii) : list nat :=
  editDistance x y ::
  match rest with
  | [] => []
  | d :: rest' => rowOf x (d :: y) rest'
  end.

(** A [Double] that is a number: [x == x], which only NaN fails. *)
Definition isNumber (x : Double) : Prop := PrimFloat.eqb x x = true.

Definition Double_le (x y : Double) : Prop := PrimFloat.leb x y = true.
Definition Double_lt (x y : Double) : Prop := PrimFloat.ltb x y = true.

(** [hi] is the smaller of two positive numbers, read off their
    representations. *)
Definition positiveBelow (hi lo : Double) : bool :=
  match Prim2SF hi, Prim2SF lo with
  | S754_finite false mh eh, S754_finite false ml el =>
      (eh <? el)%Z || ((eh =? el)%Z && (mh <? ml)%positive)
  | _, _ => false
  end.

(** The arithmetic mean of a list of gaps in seconds: the gaps added up
    in the order of the list, starting from [total], and the sum divided
    by the number of gaps. *)
Fixpoint sumFrom (total : Double) (gaps : list TimeInterval) : Double :=
  match gaps with
  | [] => total
  | gap :: rest => sumFrom (total + gap)%float rest
  end.

Definition countOf (gaps : list TimeInterval) : Double :=
  PrimFloat.of_uint63 (Uint63.of_Z (Z.of_nat (List.length gaps))).

Definition meanInterval (gaps : list TimeInterval) : Double :=
  (sumFrom 0 gaps / countOf gaps)%float.

(** The mean gap converted to days, a day being 86400 seconds. *)
Definition meanDays (gaps : list TimeInterval) : Double :=
  (meanInterval gaps / 86400)%float.

(** The day-count ranges of the frequency buckets, each on its own, and
    [unknown] for a day count in none of them. *)
Definition dayCountBucket (days : Double) (f : RecurringFrequency) : Prop :=
  (match f with
   | daily => Double_le 0 days /\ Double_lt days 2
   | weekly => Double_le 6 days /\ Double_le days 8
   | biweekly => Double_le 13 days /\ Double_le days 17
   | monthly => Double_le 28 days /\ Double_le days 32
   | quarterly => Double_le 88 days /\ Double_le days 95
   | yearly => Double_le 360 days /\ Double_le days 370
   | unknown =>
       ~ (Double_le 0 days /\ Double_lt days 2)
       /\ ~ (Double_le 6 days /\ Double_le days 8)
       /\ ~ (Double_le 13 days /\ Double_le days 17)
       /\ ~ (Double_le 28 days /\ Double_le days 32)
       /\ ~ (Double_le 88 days /\ Double_le days 95)
       /\ ~ (Double_le 360 days /\ Double_le days 370)
   end)%float.

(** One unit of a frequency, as a calendar component and a count. *)
Definition cadenceUnit (f : RecurringFrequency) : option (CalendarComponent * Z) :=
  match f with
  | daily => Some (day, 1%Z)
  | weekly => Some (day, 7%Z)
  | biweekly => Some (day, 14%Z)
  | monthly => Some (month, 1%Z)
  | quarterly => Some (month, 3%Z)
  | yearly => Some (year, 1%Z)
  | unknown => None
  end.

Definition advancedByOneUnit (calendar : Calendar) (f : RecurringFrequency)
    (from : Date) : option Date :=
  match cadenceUnit f with
  | Some (component, count) => calendar component count from
  | None => None
  end.

(** ** The rest of the detector and its callers *)

(** [getUpcomingRecurring]: the stored patterns expected within a week
    from [now], soonest first.  [Date.distantFuture] is a parameter: it
    stands in for a missing date in the comparison only. *)
Definition getUpcomingRecurring (calendar : Calendar) (now distantFuture : Date)
    (d : RecurringExpenseDetector) : list RecurringPattern.t :=
  let nextWeek := coalesce (calendar day 7%Z now) now in
  sorted
    (fun pattern1 pattern2 =>
       PrimFloat.ltb
         (coalesce (RecurringPattern.nextPredicted pattern1) distantFuture)
         (coalesce (RecurringPattern.nextPredicted pattern2) distantFuture))
    (filter
       (fun pattern =>
          match RecurringPattern.nextPredicted pattern with
          | None => false
          | Some nextDate =>
              PrimFloat.leb now nextDate && PrimFloat.leb nextDate nextWeek
          end)
       (detectedPatterns d)).

(** The world after [dismissSuggestion], which only the detector sees. *)
Definition afterDismissal (suggestion : RecurringSuggestion.t) (w : World) : World :=
  mkWorld (objects w) (dismissSuggestion suggestion (detector w)) (drawn w).

(** [ExpenseViewModel], as far as it calls the detector: [expenses] is its
    published list of expenses. *)
Definition checkForRecurringPattern (calendar : Calendar) (uuidSource : nat -> UUID)
    (now : Date) (expenses : list ExpenseRef) (expense : ExpenseRef) (w : World)
    : Outcome World :=
  analyzeExpenseForPatterns calendar uuidSource now expense expenses w.

Definition getRecurringExpenses (expenses : list ExpenseRef) (w : World)
    : list ExpenseRef :=
  filter (fun e => Expense.isRecurring (objects w e)) expenses.

Definition getSuggestedRecurringExpenses (expenses : list ExpenseRef) (w : World)
    : list ExpenseRef :=
  getSuggestedRecurring (detector w) expenses.

(** ** Definitions the further statements are written with *)

(** [otherExpense.id == expense.id]. *)
Definition sameIdentifier (heap : Store) (a b : ExpenseRef) : bool :=
  optional_eqb N.eqb (Expense.id (heap a)) (Expense.id (heap b)).

(** The list of patterns after a pattern was built: it is appended unless
    its identifier is stored already. *)
Definition storePattern (pattern : RecurringPattern.t)
    (known : list RecurringPattern.t) : list RecurringPattern.t :=
  if existsb (fun p => N.eqb (RecurringPattern.id p) (RecurringPattern.id pattern)) known
  then known else known ++ [pattern].

(** The identifiers of everything stored, and the invariant that they are
    pairwise distinct and drawn from the source. *)
Definition storedIdentifiers (d : RecurringExpenseDetector) : list UUID :=
  map RecurringPattern.id (detectedPatterns d)
  ++ map RecurringSuggestion.id (suggestions d).

Definition identifiersFresh (uuidSource : nat -> UUID) (w : World) : Prop :=
  NoDup (storedIdentifiers (detector w))
  /\ forall u, In u (storedIdentifiers (detector w)) ->
               exists k, k < drawn w /\ u = uuidSource k.

(** Comparison of elements by a [Double] key, strict as [sorted(by:)] is
    given it, and the order a sorted list is in. *)
Definition keyBelow {A : Type} (key : A -> Double) (a b : A) : bool :=
  PrimFloat.ltb (key a) (key b).
Definition keyOrdered {A : Type} (key : A -> Double) (a b : A) : Prop :=
  Double_le (key a) (key b).

(** The registry after the third and then the fourth occurrence of the
    subscription have been analysed, each with the history before it: two
    patterns and two suggestions, four identifiers drawn. *)
Module Twice.

Definition pattern : RecurringPattern.t :=
  RecurringPattern.make 2%N "Netflix"%string "Entertainment"%string 93.0%float
    monthly 1.0%float (Scenario.secondsOfDays 90) (Some (Scenario.secondsOfDays 120)).

Definition suggestion : RecurringSuggestion.t :=
  RecurringSuggestion.make 3%N 3%nat pattern 1.0%float.

Definition world : World :=
  mkWorld Scenario.heap
    (mkDetector [Scenario.pattern; pattern] [Scenario.suggestion; suggestion]) 4.

End Twice.

(** * Properties *)

(** ** Outcomes *)

Lemma bind_Returns {A B : Type} (m : Outcome A) (k : A -> Outcome B) (b : B) :
  bind m k = Returns b -> exists a, m = Returns a /\ k a = Returns b.
Proof. destruct m as [a|]; simpl; [eauto | discriminate]. Qed.

Lemma Returns_inj {A : Type} (x y : A) : Returns x = Returns y -> x = y.
Proof.
  intros H.
  exact (f_equal (fun o => match o with Returns a => a | Traps => x end) H).
Qed.

Lemma filterM_total {A : Type} (p : A -> Outcome bool) (l : list A) :
  (forall x, In x l -> exists b, p x = Returns b) ->
  exists kept, filterM p l = Returns kept.
Proof.
  induction l as [|x rest IH]; intros H.
  - now exists [].
  - destruct (H x (or_introl eq_refl)) as [b Hb].
    destruct IH as [kept Hk]; [intros y Hy; apply H; now right|].
    cbn [filterM]. rewrite Hb, Hk. cbn [bind]. eauto.
Qed.

(** ** The table of [levenshteinDistance] *)

Section LevenshteinTable.

Lemma editDistance_nil_r x : editDistance x [] = List.length x.
Proof. destruct x; reflexivity. Qed.

Lemma editDistance_cons a x b y :
  editDistance (a :: x) (b :: y)
  = if Ascii.eqb a b then editDistance x y
    else 1 + min3 (editDistance x (b :: y)) (editDistance (a :: x) y)
               (editDistance x y).
Proof. reflexivity. Qed.

Lemma editDistance_sym : forall x y, editDistance x y = editDistance y x.
Proof.
  induction x as [|a x IHx]; intros y.
  - rewrite editDistance_nil_r. destruct y; reflexivity.
  - induction y as [|b y IHy].
    + reflexivity.
    + rewrite !editDistance_cons, (Ascii.eqb_sym b a).
      destruct (Ascii.eqb a b).
      * apply IHx.
      * rewrite (IHx (b :: y)), (IHx y), IHy. unfold min3. lia.
Qed.

Lemma rowOf_cons x y d rest :
  rowOf x y (d :: rest) = editDistance x y :: rowOf x (d :: y) rest.
Proof. reflexivity. Qed.

Lemma rowOf_unfold x y rest :
  rowOf x y rest = editDistance x y :: tl (rowOf x y rest).
Proof. destruct rest; reflexivity. Qed.

(** The inner loop turns the row of [x] into the row of [c :: x]. *)
Lemma fillRow_rowOf : forall rest c x y,
  fillRow c rest (rowOf x y rest) (editDistance (c :: x) y)
  = tl (rowOf (c :: x) y rest).
Proof.
  induction rest as [|d rest IH]; intros c x y.
  - reflexivity.
  - rewrite !rowOf_cons. cbn [tl].
    rewrite (rowOf_unfold x (d :: y) rest).
    cbn [fillRow]. rewrite <- (rowOf_unfold x (d :: y) rest).
    rewrite <- editDistance_cons, IH. symmetry. apply rowOf_unfold.
Qed.

(** The initialisation [dp[0][j] = j]. *)
Lemma rowOf_nil : forall rest y,
  rowOf [] y rest = seq (List.length y) (S (List.length rest)).
Proof.
  induction rest as [|d rest IH]; intros y.
  - destruct y; reflexivity.
  - rewrite rowOf_cons, IH. destruct y; reflexivity.
Qed.

Lemma rowOf_last : forall rest x y,
  last (rowOf x y rest) 0 = editDistance x (rev rest ++ y).
Proof.
  induction rest as [|d rest IH]; intros x y.
  - reflexivity.
  - rewrite rowOf_cons. cbn [rev]. rewrite <- app_assoc, <- IH.
    cbn [app]. rewrite (rowOf_unfold x (d :: y) rest). reflexivity.
Qed.

(** The outer loop, with [dp[i][0] = i]. *)
Lemma fillTable_rowOf : forall str1 x str2,
  fillTable str1 str2 (S (List.length x)) (rowOf x [] str2)
  = rowOf (rev str1 ++ x) [] str2.
Proof.
  induction str1 as [|c str1 IH]; intros x str2.
  - reflexivity.
  - cbn [fillTable rev]. rewrite <- app_assoc. cbn [app].
    rewrite <- (IH (c :: x) str2). f_equal.
    rewrite (rowOf_unfold (c :: x) [] str2), <- fillRow_rowOf.
    reflexivity.
Qed.

Lemma length_list_ascii_of_string s :
  List.length (list_ascii_of_string s) = String.length s.
Proof. induction s; simpl; congruence. Qed.

(** On non-empty strings the loops run and return the tabulated distance. *)
Lemma levenshteinDistance_editDistance str1 str2 :
  String.length str1 <> 0 -> String.length str2 <> 0 ->
  levenshteinDistance str1 str2
  = Returns (editDistance (rev (list_ascii_of_string str1))
               (rev (list_ascii_of_string str2))).
Proof.
  intros H1 H2. unfold levenshteinDistance.
  rewrite !length_list_ascii_of_string.
  destruct (Nat.eqb_spec (String.length str1) 0); [contradiction|].
  destruct (Nat.eqb_spec (String.length str2) 0); [contradiction|].
  cbn [orb]. f_equal.
  rewrite <- length_list_ascii_of_string, <- (rowOf_nil _ []).
  change 1 with (S (@List.length ascii [])).
  rewrite fillTable_rowOf, rowOf_last, !app_nil_r. reflexivity.
Qed.

Lemma levenshteinDistance_sym str1 str2 :
  levenshteinDistance str1 str2 = levenshteinDistance str2 str1.
Proof.
  destruct (Nat.eq_dec (String.length str1) 0) as [E1|N1];
    [|destruct (Nat.eq_dec (String.length str2) 0) as [E2|N2]].
  - unfold levenshteinDistance. rewrite !length_list_ascii_of_string, E1.
    now rewrite orb_true_r.
  - unfold levenshteinDistance. rewrite !length_list_ascii_of_string, E2.
    now rewrite orb_true_r.
  - rewrite !levenshteinDistance_editDistance by assumption.
    f_equal. apply editDistance_sym.
Qed.

End LevenshteinTable.

(** [stringSimilarity] never reaches the trap of [levenshteinDistance]. *)
Lemma stringSimilarity_returns str1 str2 :
  exists similarity, stringSimilarity str1 str2 = Returns similarity.
Proof.
  unfold stringSimilarity, isEmpty.
  destruct (Nat.eqb_spec (String.length str1) 0) as [E1|N1];
    destruct (Nat.eqb_spec (String.length str2) 0) as [E2|N2];
    cbn [negb andb]; eauto.
  destruct (String.length str2 <? String.length str1);
    rewrite levenshteinDistance_editDistance by assumption; cbn [bind]; eauto.
Qed.

Lemma stringSimilarity_sym str1 str2 :
  stringSimilarity str1 str2 = stringSimilarity str2 str1.
Proof.
  unfold stringSimilarity.
  rewrite (andb_comm (negb (isEmpty str1))), (andb_comm (isEmpty str1)).
  destruct (negb (negb (isEmpty str2) && negb (isEmpty str1))); [reflexivity|].
  destruct (Nat.ltb_spec (String.length str2) (String.length str1));
    destruct (Nat.ltb_spec (String.length str1) (String.length str2));
    try reflexivity; try lia.
  assert (E : String.length str1 = String.length str2) by lia.
  rewrite (levenshteinDistance_sym str1 str2), E. reflexivity.
Qed.

(** ** Binary64 arithmetic *)

Section Binary64.

(** Rounding handles the sign apart from the magnitude. *)
Lemma SFabs_binary_normalize m e :
  SFabs (binary_normalize prec emax (- m) e false)
  = SFabs (binary_normalize prec emax m e false).
Proof.
  destruct m as [|p|p]; cbn [Z.opp binary_normalize]; try reflexivity;
    unfold binary_round, binary_round_aux;
    repeat match goal with
           | |- context [let '(_, _) := ?t in _] => destruct t
           | |- context [match ?t with Z0 => _ | Zpos _ => _ | Zneg _ => _ end] =>
               destruct t
           | |- context [if ?t then _ else _] => destruct t
           end; reflexivity.
Qed.

Lemma SFabs_SFsub_comm x y :
  SFabs (SFsub prec emax x y) = SFabs (SFsub prec emax y x).
Proof.
  destruct x as [sx|sx| |sx mx ex], y as [sy|sy| |sy my ey];
    try reflexivity; try (destruct sx, sy; reflexivity).
  cbn [SFsub]. rewrite (Z.min_comm ey ex).
  rewrite <- SFabs_binary_normalize. f_equal. f_equal. lia.
Qed.

Lemma abs_sub_comm (x y : Double) :
  PrimFloat.abs (x - y) = PrimFloat.abs (y - x).
Proof.
  apply Prim2SF_inj.
  rewrite !FloatAxioms.abs_spec, !FloatAxioms.sub_spec. apply SFabs_SFsub_comm.
Qed.

Lemma SFcompare_antisym x y :
  SFcompare y x = option_map CompOpp (SFcompare x y).
Proof.
  destruct x as [sx|sx| |sx mx ex], y as [sy|sy| |sy my ey];
    try reflexivity; try (destruct sx; reflexivity); try (destruct sy; reflexivity);
    try (destruct sx, sy; reflexivity).
  cbn [SFcompare option_map]. f_equal.
  destruct sx, sy; try reflexivity;
    rewrite (Z.compare_antisym ex ey); destruct (Z.compare ex ey); cbn [CompOpp];
    try reflexivity; rewrite (Pos.compare_cont_antisym mx my Eq); reflexivity.
Qed.

Lemma SFcompare_None x y :
  SFcompare x y = None -> x = S754_nan \/ y = S754_nan.
Proof.
  destruct x as [sx|sx| |sx mx ex], y as [sy|sy| |sy my ey]; cbn [SFcompare];
    intros H; try discriminate; auto.
Qed.

(** Two numbers that compare equal are the same, or are both zeros. *)
Lemma SFcompare_Eq x y :
  SFcompare x y = Some Eq ->
  x = y \/ (exists s s', x = S754_zero s /\ y = S754_zero s').
Proof.
  destruct x as [sx|sx| |sx mx ex], y as [sy|sy| |sy my ey]; cbn [SFcompare];
    intros H; try discriminate.
  all: try (destruct sx; discriminate); try (destruct sy; discriminate).
  - right; eauto.
  - destruct sx, sy; try discriminate; auto.
  - left.
    destruct sx, sy; try discriminate;
      destruct (Z.compare_spec ex ey) as [E| |]; try discriminate; subst ey;
      injection H as H;
      [apply (f_equal CompOpp) in H; rewrite CompOpp_involutive in H; cbn in H|];
      apply Pos.compare_eq in H; subst; reflexivity.
Qed.

Lemma isNumber_not_nan x : isNumber x -> Prim2SF x <> S754_nan.
Proof.
  unfold isNumber. rewrite FloatAxioms.eqb_spec. intros H E.
  rewrite E in H. discriminate.
Qed.

Lemma Double_lt_le x y : Double_lt x y -> Double_le x y.
Proof.
  unfold Double_lt, Double_le. rewrite FloatAxioms.ltb_spec, FloatAxioms.leb_spec.
  unfold SFltb, SFleb. destruct (SFcompare _ _) as [[| |]|]; auto.
Qed.

(** No number lies above [lo] and below a smaller [hi]. *)
Lemma Double_le_clash (lo hi x : Double) :
  positiveBelow hi lo = true -> Double_le lo x -> Double_le x hi -> False.
Proof.
  unfold positiveBelow, Double_le. rewrite !FloatAxioms.leb_spec.
  destruct (Prim2SF hi) as [| | |[|] mh eh]; try discriminate.
  destruct (Prim2SF lo) as [| | |[|] ml el]; try discriminate.
  intros Hlt.
  rewrite orb_true_iff, andb_true_iff, Z.ltb_lt, Z.eqb_eq, Pos.ltb_lt in Hlt.
  unfold SFleb.
  destruct (Prim2SF x) as [s|s| |s m e]; cbn [SFcompare];
    try discriminate; try (destruct s; discriminate).
  destruct s; try discriminate.
  destruct (Z.compare_spec el e), (Z.compare_spec e eh); try discriminate; try lia.
  subst.
  change (Pos.compare_cont Eq ?a ?b) with (Pos.compare a b).
  destruct (Pos.compare_spec ml m), (Pos.compare_spec m mh); try discriminate; lia.
Qed.

Lemma Double_one_not_zero : 1%float <> 0%float.
Proof.
  intros E. pose proof (f_equal (PrimFloat.ltb 0) E) as H.
  vm_compute in H. discriminate.
Qed.

End Binary64.

(** ** Similarity scorer *)

Lemma amountSimilarity_sym a b :
  isNumber a -> isNumber b -> amountSimilarity a b = amountSimilarity b a.
Proof.
  intros Ha Hb. unfold amountSimilarity, max_Double.
  rewrite (abs_sub_comm b a), !FloatAxioms.leb_spec. unfold SFleb.
  rewrite (SFcompare_antisym (Prim2SF a) (Prim2SF b)).
  destruct (SFcompare (Prim2SF a) (Prim2SF b)) as [[| |]|] eqn:C;
    cbn [option_map CompOpp]; try reflexivity.
  - apply SFcompare_Eq in C. destruct C as [C|(s & s' & Ea & Eb)].
    + apply Prim2SF_inj in C. now subst.
    + rewrite !FloatAxioms.ltb_spec, Ea, Eb. reflexivity.
  - apply SFcompare_None in C. destruct C as [C|C];
      [now apply isNumber_not_nan in Ha | now apply isNumber_not_nan in Hb].
Qed.

Lemma optional_eqb_sym {A : Type} (eqb : A -> A -> bool) :
  (forall x y, eqb x y = eqb y x) ->
  forall x y, optional_eqb eqb x y = optional_eqb eqb y x.
Proof. intros H [x|] [y|]; simpl; auto. Qed.

Lemma optional_eqb_eq (x y : option string) :
  optional_eqb String.eqb x y = true <-> x = y.
Proof.
  destruct x as [x|], y as [y|]; simpl; try (split; [discriminate | congruence]).
  - rewrite String.eqb_eq. split; congruence.
  - split; reflexivity.
Qed.

Lemma calculateSimilarity_returns (expense1 expense2 : Expense.t) :
  exists similarity, calculateSimilarity expense1 expense2 = Returns similarity.
Proof.
  unfold calculateSimilarity, titleSimilarity.
  destruct (stringSimilarity_returns
              (coalesce (Expense.title expense1) EmptyString)
              (coalesce (Expense.title expense2) EmptyString)) as [t ->].
  cbn [bind]. eauto.
Qed.

(** C7. Similarity is symmetric: for every pair of expenses [a], [b] of the
    data model, whose amounts are numbers (not NaN), [calculateSimilarity a b]
    and [calculateSimilarity b a] are the same outcome. *)
Theorem calculateSimilarity_symmetric (a b : Expense.t) :
  isNumber (Expense.amount a) -> isNumber (Expense.amount b) ->
  calculateSimilarity a b = calculateSimilarity b a.
Proof.
  intros Ha Hb. unfold calculateSimilarity, titleSimilarity, categorySimilarity.
  rewrite (amountSimilarity_sym _ _ Ha Hb).
  rewrite (stringSimilarity_sym (coalesce (Expense.title a) EmptyString)).
  rewrite (optional_eqb_sym String.eqb String.eqb_sym (Expense.category a)).
  reflexivity.
Qed.

Lemma calculateSimilarity_symmetric_witness :
  calculateSimilarity (Scenario.netflix 100 0) (Scenario.blank 104)
  = calculateSimilarity (Scenario.blank 104) (Scenario.netflix 100 0).
Proof.
  apply (calculateSimilarity_symmetric (Scenario.netflix 100 0) (Scenario.blank 104));
    reflexivity.
Defined.

(** An amount that is not a number breaks the symmetry: [max] keeps its
    first argument when the comparison with NaN fails. *)
Remark calculateSimilarity_nan_amount :
  let a := Expense.make (Some 1%N) PrimFloat.nan None None None false in
  let b := Expense.make (Some 2%N) 1%float None None None false in
  calculateSimilarity a b = Returns 1%float
  /\ calculateSimilarity b a = Returns PrimFloat.nan.
Proof. split; vm_compute; reflexivity. Qed.

(** C3, as the code has it. When all three compared fields are empty
    (both amounts 0, both titles empty or missing, both categories
    missing), every term takes its default 1 and the similarity is 1.0. *)
Theorem calculateSimilarity_blank (a b : Expense.t) :
  Expense.amount a = 0%float -> Expense.amount b = 0%float ->
  coalesce (Expense.title a) EmptyString = EmptyString ->
  coalesce (Expense.title b) EmptyString = EmptyString ->
  Expense.category a = None -> Expense.category b = None ->
  calculateSimilarity a b = Returns 1%float.
Proof.
  intros Ha Hb Ta Tb Ca Cb.
  unfold calculateSimilarity, titleSimilarity, categorySimilarity.
  rewrite Ha, Hb, Ta, Tb, Ca, Cb. vm_compute. reflexivity.
Qed.

Lemma calculateSimilarity_blank_witness :
  calculateSimilarity (Scenario.blank 104) (Scenario.blank 105) = Returns 1%float.
Proof.
  apply (calculateSimilarity_blank (Scenario.blank 104) (Scenario.blank 105));
    reflexivity.
Defined.

(** C3, as stated, fails: two blank records have similarity 1.0, not 0.0. *)
Lemma calculateSimilarity_blank_not_zero :
  calculateSimilarity (Scenario.blank 104) (Scenario.blank 105) = Returns 1%float
  /\ calculateSimilarity (Scenario.blank 104) (Scenario.blank 105) <> Returns 0%float.
Proof.
  assert (E : calculateSimilarity (Scenario.blank 104) (Scenario.blank 105)
              = Returns 1%float) by (vm_compute; reflexivity).
  split; [exact E|]. rewrite E. intros H. apply Returns_inj in H.
  now apply Double_one_not_zero.
Qed.

(** C4, as the code has it. The category term is 1.0 exactly when the two
    optional categories are equal as optionals, character by character: both
    missing, or both present with the same text; otherwise it is 0.0.  A
    missing category against the category "Other" contributes 0.0. *)
Theorem categorySimilarity_optionals (category1 category2 : option string) :
  (categorySimilarity category1 category2 = 1.0%float <-> category1 = category2)
  /\ (categorySimilarity category1 category2 = 0.0%float <-> category1 <> category2)
  /\ categorySimilarity None (Some "Other"%string) = 0.0%float
  /\ categorySimilarity (Some "other"%string) (Some "Other"%string) = 0.0%float.
Proof.
  unfold categorySimilarity.
  pose proof (optional_eqb_eq category1 category2) as E.
  destruct (optional_eqb String.eqb category1 category2).
  - assert (category1 = category2) by now apply E.
    repeat split; auto; try contradiction.
    intros H0. now apply Double_one_not_zero in H0.
  - assert (category1 <> category2) by (intros H; apply E in H; discriminate).
    repeat split; auto; try contradiction.
    intros H0. symmetry in H0. now apply Double_one_not_zero in H0.
Qed.

(** C4, as stated, fails: with the missing category read as "Other" the two
    categories are equal, yet the term is 0.0. *)
Lemma categorySimilarity_missing_against_Other :
  coalesce None "Other"%string = coalesce (Some "Other"%string) "Other"%string
  /\ categorySimilarity None (Some "Other"%string) = 0.0%float
  /\ categorySimilarity None (Some "Other"%string) <> 1.0%float.
Proof.
  repeat split. intros H. symmetry in H. now apply Double_one_not_zero in H.
Qed.

(** ** Temporal analyzer *)

Ltac absurd_range :=
  exfalso;
  match goal with
  | L : PrimFloat.leb ?lo ?x = true, H : PrimFloat.leb ?x ?hi = true |- _ =>
      apply (Double_le_clash lo hi x); [vm_compute; reflexivity | exact L | exact H]
  | L : PrimFloat.leb ?lo ?x = true, H : PrimFloat.ltb ?x ?hi = true |- _ =>
      apply (Double_le_clash lo hi x);
      [vm_compute; reflexivity | exact L | exact (Double_lt_le _ _ H)]
  end.

Ltac split_ranges :=
  repeat match goal with
         | |- context [if ?a && ?b then _ else _] =>
             let A := fresh "A" in
             let B := fresh "B" in
             destruct a eqn:A; [destruct b eqn:B|]; cbn [andb]
         end.

(** The first matching [case] of the [switch] is the only matching range:
    the ranges are pairwise disjoint. *)
Lemma frequencyOfDays_bucket (days : Double) (f : RecurringFrequency) :
  frequencyOfDays days = f <-> dayCountBucket days f.
Proof.
  unfold frequencyOfDays, inHalfOpenRange, inClosedRange.
  split.
  - intros <-. split_ranges;
      cbn [dayCountBucket]; unfold Double_le, Double_lt; repeat split;
      try assumption; intros [? ?]; congruence.
  - destruct f; cbn [dayCountBucket]; unfold Double_le, Double_lt.
    1-6: intros [L H]; split_ranges; try reflexivity; try congruence; absurd_range.
    intros (N1 & N2 & N3 & N4 & N5 & N6).
    split_ranges; try reflexivity; exfalso; auto.
Qed.

Lemma frequencyOfDays_gap (days : Double) :
  Double_le 3%float days -> Double_le days 5%float ->
  frequencyOfDays days = unknown.
Proof.
  unfold Double_le. intros L H. apply frequencyOfDays_bucket.
  cbn [dayCountBucket]. unfold Double_le, Double_lt.
  repeat split; intros [L' H']; absurd_range.
Qed.

Lemma reduce_add_sumFrom (gaps : list TimeInterval) :
  reduce_add gaps = sumFrom 0%float gaps.
Proof.
  unfold reduce_add. generalize 0%float as total.
  induction gaps as [|gap rest IH]; intros total; [reflexivity|].
  cbn [fold_left sumFrom]. apply IH.
Qed.

(** The average the code takes is the arithmetic mean, and the number it
    divides by to get days is the number of seconds of a day. *)
Lemma averageOf_meanInterval (gaps : list TimeInterval) :
  averageOf gaps = meanInterval gaps.
Proof.
  unfold averageOf, meanInterval, countOf, Double_of_Int.
  now rewrite reduce_add_sumFrom.
Qed.

Lemma secondsPerDay_86400 : secondsPerDay = 86400%float.
Proof. reflexivity. Qed.

Lemma determineFrequency_frequency (intervals : list TimeInterval) :
  intervals <> [] ->
  fst (determineFrequency intervals) = frequencyOfDays (meanDays intervals).
Proof.
  destruct intervals as [|gap rest]; [contradiction|]. intros _.
  unfold determineFrequency, meanDays. cbn [fst].
  now rewrite averageOf_meanInterval, secondsPerDay_86400.
Qed.

(** C5. For every non-empty list of gaps the frequency is the bucket of
    the mean gap in days, the mean being the sum of the gaps divided by
    their number and a day 86400 seconds: daily on [0,2), weekly on [6,8],
    biweekly on [13,17], monthly on [28,32], quarterly on [88,95], yearly
    on [360,370], and unknown exactly when the mean lies in none of these
    ranges, as it does between 3 and 5 days. *)
Theorem determineFrequency_buckets (intervals : list TimeInterval)
    (f : RecurringFrequency) :
  intervals <> [] ->
  (fst (determineFrequency intervals) = f <-> dayCountBucket (meanDays intervals) f)
  /\ (Double_le 3%float (meanDays intervals) ->
      Double_le (meanDays intervals) 5%float ->
      fst (determineFrequency intervals) = unknown).
Proof.
  intros H. rewrite (determineFrequency_frequency intervals H). split.
  - apply frequencyOfDays_bucket.
  - apply frequencyOfDays_gap.
Qed.

(** Gaps of 29 and 31 days have a mean of 30 days, which is monthly. *)
Lemma determineFrequency_buckets_witness :
  meanDays [Scenario.secondsOfDays 29; Scenario.secondsOfDays 31] = 30%float
  /\ fst (determineFrequency [Scenario.secondsOfDays 29; Scenario.secondsOfDays 31])
     = monthly.
Proof.
  split; [reflexivity|].
  apply (determineFrequency_buckets
           [Scenario.secondsOfDays 29; Scenario.secondsOfDays 31] monthly).
  - discriminate.
  - split; reflexivity.
Defined.

(** The buckets at work: gaps of 30 days are monthly, gaps of 4 days fall
    between the ranges, and an empty list is unknown with confidence 0. *)
Example determineFrequency_examples :
  determineFrequency [Scenario.secondsOfDays 30; Scenario.secondsOfDays 30]
  = (monthly, 1%float)
  /\ fst (determineFrequency [Scenario.secondsOfDays 4]) = unknown
  /\ determineFrequency [] = (unknown, 0%float).
Proof. repeat split; vm_compute; reflexivity. Qed.

(** ** Pattern builder *)

Section Sorting.

Context {A : Type} (areInIncreasingOrder : A -> A -> bool).

Lemma insertSorted_In (x y : A) (l : list A) :
  In y (insertSorted areInIncreasingOrder x l) <-> y = x \/ In y l.
Proof.
  induction l as [|z l IH]; cbn [insertSorted].
  - simpl. intuition.
  - destruct (areInIncreasingOrder z x); simpl in *; intuition.
Qed.

Lemma sorted_In (y : A) (l : list A) :
  In y (sorted areInIncreasingOrder l) <-> In y l.
Proof.
  induction l as [|x l IH]; [reflexivity|].
  unfold sorted in *. cbn [fold_right]. rewrite insertSorted_In, IH.
  simpl. intuition.
Qed.

Lemma insertSorted_length (x : A) (l : list A) :
  List.length (insertSorted areInIncreasingOrder x l) = S (List.length l).
Proof.
  induction l as [|z l IH]; cbn [insertSorted]; [reflexivity|].
  destruct (areInIncreasingOrder z x); simpl; congruence.
Qed.

Lemma sorted_length (l : list A) :
  List.length (sorted areInIncreasingOrder l) = List.length l.
Proof.
  induction l as [|x l IH]; [reflexivity|].
  unfold sorted in *. cbn [fold_right]. rewrite insertSorted_length. simpl. congruence.
Qed.

Lemma last_In (l : list A) (d : A) : In (last l d) (d :: l).
Proof.
  induction l as [|z l IH]; [now left|].
  destruct l as [|z' l]; [right; now left|].
  change (last (z :: z' :: l) d) with (last (z' :: l) d).
  destruct IH as [IH|IH]; [now left | right; now right].
Qed.

Lemma lastOf_In (l : list A) (x : A) : lastOf l = Some x -> In x l.
Proof.
  destruct l as [|y l]; [discriminate|]. cbn [lastOf]. intros [= <-].
  apply last_In.
Qed.

Lemma lastOf_nonempty (l : list A) : l <> [] -> exists x, lastOf l = Some x.
Proof. destruct l; [contradiction | simpl; eauto]. Qed.

End Sorting.

(** What [detectPattern] returns when it returns a pattern. *)
Lemma detectPattern_Some (calendar : Calendar) (uuidSource : nat -> UUID)
    (now : Date) (w w' : World) (expense : ExpenseRef)
    (similarExpenses : list ExpenseRef) (pattern : RecurringPattern.t) :
  detectPattern calendar uuidSource now w expense similarExpenses
  = Returns (Some pattern, w') ->
  let heap := objects w in
  let sortedExpenses := sorted (byDate now heap) ([expense] ++ similarExpenses) in
  exists intervals,
    calculateIntervals heap sortedExpenses = Returns intervals
    /\ Double_lt minimumConfidence (snd (determineFrequency intervals))
    /\ w' = snd (newUUID uuidSource w)
    /\ pattern =
       RecurringPattern.make
         (uuidSource (drawn w))
         (coalesce (Expense.title (heap expense)) "Unknown"%string)
         (coalesce (Expense.category (heap expense)) "Other"%string)
         (calculateAverageAmount heap sortedExpenses)
         (fst (determineFrequency intervals))
         (snd (determineFrequency intervals))
         (coalesce (lastDateOf heap sortedExpenses) now)
         (predictNextOccurrence calendar heap sortedExpenses
            (fst (determineFrequency intervals))).
Proof.
  unfold detectPattern. intros H. cbv zeta.
  destruct (List.length _ <? 2); [apply Returns_inj in H; discriminate|].
  apply bind_Returns in H. destruct H as (intervals & Hi & H).
  exists intervals. split; [exact Hi|].
  destruct (determineFrequency intervals) as [frequency confidence]. cbn [fst snd].
  unfold Double_lt.
  destruct (PrimFloat.ltb minimumConfidence confidence);
    cbn [negb] in H; [|apply Returns_inj in H; discriminate].
  apply Returns_inj in H. cbn [newUUID] in H.
  split; [reflexivity|].
  pose proof (f_equal snd H) as Hw. pose proof (f_equal fst H) as Hp.
  cbn [fst snd] in Hw, Hp. split; [now symmetry|].
  exact (f_equal (fun o => match o with Some p => p | None => pattern end)
           (eq_sym Hp)).
Qed.

(** C6. For every pattern built from expenses that all carry a date,
    [nextPredicted] is [lastOccurrence] advanced through the calendar by one
    unit of the frequency (1, 7 or 14 days, 1 or 3 months, 1 year); with a
    calendar that always yields a date, it is missing exactly when the
    frequency is unknown. *)
Theorem nextPredicted_one_unit (calendar : Calendar) (uuidSource : nat -> UUID)
    (now : Date) (w w' : World) (expense : ExpenseRef)
    (similarExpenses : list ExpenseRef) (pattern : RecurringPattern.t) :
  (forall e, In e (expense :: similarExpenses) ->
             Expense.date (objects w e) <> None) ->
  detectPattern calendar uuidSource now w expense similarExpenses
  = Returns (Some pattern, w') ->
  RecurringPattern.nextPredicted pattern
  = advancedByOneUnit calendar (RecurringPattern.frequency pattern)
      (RecurringPattern.lastOccurrence pattern)
  /\ ((forall component count from, calendar component count from <> None) ->
      (RecurringPattern.nextPredicted pattern = None
       <-> RecurringPattern.frequency pattern = unknown)).
Proof.
  intros Hdates H. apply detectPattern_Some in H. cbv zeta in H.
  destruct H as (intervals & _ & _ & _ & ->).
  cbn [RecurringPattern.nextPredicted RecurringPattern.frequency
       RecurringPattern.lastOccurrence].
  set (sortedExpenses := sorted (byDate now (objects w)) ([expense] ++ similarExpenses)).
  assert (Hlast : exists lastDate, lastDateOf (objects w) sortedExpenses = Some lastDate).
  { destruct (lastOf_nonempty sortedExpenses) as [e He].
    - intros E. apply (f_equal (@List.length _)) in E.
      unfold sortedExpenses in E. rewrite sorted_length in E. discriminate.
    - unfold lastDateOf. rewrite He.
      apply lastOf_In in He. apply sorted_In in He.
      specialize (Hdates e He). unfold dateOf.
      destruct (Expense.date (objects w e)) as [d|]; [eauto | contradiction]. }
  destruct Hlast as [lastDate Hlast].
  unfold predictNextOccurrence, advancedByOneUnit. rewrite Hlast. cbn [coalesce].
  split.
  - destruct (fst (determineFrequency intervals)); reflexivity.
  - intros Htotal.
    destruct (fst (determineFrequency intervals)); cbn [cadenceUnit];
      split; intros E; try reflexivity; try discriminate;
      exfalso; revert E; apply Htotal.
Qed.

(** The calendar of the scenarios always yields a date. *)
Lemma GregorianUTC_total component count from :
  GregorianUTC.calendar component count from <> None.
Proof. destruct component; discriminate. Qed.

Lemma nextPredicted_one_unit_witness :
  RecurringPattern.nextPredicted Scenario.pattern
  = advancedByOneUnit GregorianUTC.calendar
      (RecurringPattern.frequency Scenario.pattern)
      (RecurringPattern.lastOccurrence Scenario.pattern)
  /\ (RecurringPattern.nextPredicted Scenario.pattern = None
      <-> RecurringPattern.frequency Scenario.pattern = unknown).
Proof.
  destruct (nextPredicted_one_unit GregorianUTC.calendar Scenario.uuidSource
              Scenario.now Scenario.world
              (snd (newUUID Scenario.uuidSource Scenario.world))
              2%nat [0%nat; 1%nat] Scenario.pattern) as [Hnext Hnone].
  - intros e [<-|[<-|[<-|[]]]]; discriminate.
  - vm_compute. reflexivity.
  - split; [exact Hnext | exact (Hnone GregorianUTC_total)].
Defined.

Lemma detectPattern_world (calendar : Calendar) (uuidSource : nat -> UUID)
    (now : Date) (w w' : World) (expense : ExpenseRef)
    (similarExpenses : list ExpenseRef) (found : option RecurringPattern.t) :
  detectPattern calendar uuidSource now w expense similarExpenses
  = Returns (found, w') ->
  objects w' = objects w /\ detector w' = detector w.
Proof.
  unfold detectPattern. intros H.
  destruct (List.length _ <? 2).
  { apply Returns_inj in H. apply (f_equal snd) in H. cbn [snd] in H. now subst. }
  apply bind_Returns in H. destruct H as (intervals & _ & H).
  destruct (determineFrequency intervals) as [frequency confidence].
  destruct (negb _); apply Returns_inj in H; apply (f_equal snd) in H;
    cbn [snd newUUID] in H; subst; split; reflexivity.
Qed.

(** [detectPattern] always returns: the merged list has the trigger in it. *)
Lemma detectPattern_returns (calendar : Calendar) (uuidSource : nat -> UUID)
    (now : Date) (w : World) (expense : ExpenseRef)
    (similarExpenses : list ExpenseRef) :
  exists found, detectPattern calendar uuidSource now w expense similarExpenses
                = Returns found.
Proof.
  unfold detectPattern.
  destruct (List.length _ <? 2); [eauto|].
  destruct (sorted (byDate now (objects w)) ([expense] ++ similarExpenses)) eqn:E.
  - apply (f_equal (@List.length _)) in E. rewrite sorted_length in E. discriminate.
  - cbn [calculateIntervals bind].
    destruct (determineFrequency _) as [frequency confidence].
    destruct (negb _); cbn [newUUID]; eauto.
Qed.

(** ** Suggestion registry *)

Lemma findSimilarExpenses_returns (heap : Store) (expense : ExpenseRef)
    (allExpenses : list ExpenseRef) :
  exists similarExpenses,
    findSimilarExpenses heap expense allExpenses = Returns similarExpenses.
Proof.
  apply filterM_total. intros other _.
  destruct (optional_eqb N.eqb _ _); [eauto|].
  destruct (calculateSimilarity_returns (heap expense) (heap other)) as [x ->].
  cbn [bind]. eauto.
Qed.

Lemma filterM_length {A : Type} (p : A -> Outcome bool) (l kept : list A) :
  filterM p l = Returns kept -> List.length kept <= List.length l.
Proof.
  revert kept. induction l as [|x rest IH]; intros kept H.
  - apply Returns_inj in H. subst. simpl. lia.
  - cbn [filterM] in H. apply bind_Returns in H. destruct H as (keep & _ & H).
    apply bind_Returns in H. destruct H as (kept' & Hk & H).
    apply Returns_inj in H. specialize (IH kept' Hk).
    subst kept. destruct keep; simpl; lia.
Qed.

(** With fewer than two expenses in the history the detector does nothing:
    the cluster must hold two expenses besides the trigger. *)
Lemma analyzeExpenseForPatterns_short_history (calendar : Calendar)
    (uuidSource : nat -> UUID) (now : Date) (expense : ExpenseRef)
    (allExpenses : list ExpenseRef) (w : World) :
  List.length allExpenses < 2 ->
  analyzeExpenseForPatterns calendar uuidSource now expense allExpenses w = Returns w.
Proof.
  intros Hshort. unfold analyzeExpenseForPatterns.
  destruct (findSimilarExpenses_returns (objects w) expense allExpenses) as [l Hl].
  rewrite Hl. cbn [bind]. apply filterM_length in Hl.
  destruct (Nat.leb_spec 2 (List.length l)); [lia | reflexivity].
Qed.

(** The detector never traps. *)
Lemma analyzeExpenseForPatterns_returns (calendar : Calendar)
    (uuidSource : nat -> UUID) (now : Date) (expense : ExpenseRef)
    (allExpenses : list ExpenseRef) (w : World) :
  exists w', analyzeExpenseForPatterns calendar uuidSource now expense allExpenses w
             = Returns w'.
Proof.
  unfold analyzeExpenseForPatterns.
  destruct (findSimilarExpenses_returns (objects w) expense allExpenses) as [l ->].
  cbn [bind]. destruct (2 <=? List.length l); [|eauto].
  destruct (detectPattern_returns calendar uuidSource now w expense l)
    as [[[pattern|] w1] ->]; cbn [bind]; [|eauto].
  destruct (negb _); cbn [newUUID]; eauto.
Qed.

(** A call adds at most one suggestion, for the analysed expense, at the
    end of the list. *)
Lemma analyzeExpenseForPatterns_suggestions (calendar : Calendar)
    (uuidSource : nat -> UUID) (now : Date) (expense : ExpenseRef)
    (allExpenses : list ExpenseRef) (w w' : World) :
  analyzeExpenseForPatterns calendar uuidSource now expense allExpenses w = Returns w' ->
  exists added,
    suggestions (detector w') = suggestions (detector w) ++ added
    /\ (added = [] \/ exists s, added = [s] /\ RecurringSuggestion.expense s = expense).
Proof.
  unfold analyzeExpenseForPatterns. intros H.
  apply bind_Returns in H. destruct H as (l & _ & H).
  destruct (2 <=? List.length l).
  2:{ apply Returns_inj in H. subst. exists []. rewrite app_nil_r. auto. }
  apply bind_Returns in H. destruct H as ([found w1] & Hd & H).
  apply detectPattern_world in Hd. destruct Hd as [_ Hd].
  destruct found as [pattern|].
  2:{ apply Returns_inj in H. subst. exists []. rewrite app_nil_r, Hd. auto. }
  destruct (negb _); apply Returns_inj in H; subst w';
    cbn [newUUID detector suggestions objects]; rewrite Hd.
  - eexists. split; [reflexivity|]. right. eexists. split; reflexivity.
  - exists []. rewrite app_nil_r. auto.
Qed.

(** C1, as the code has it. With one earlier occurrence as the whole
    history, analysing the second Netflix expense stores nothing: the
    detector wants two similar expenses besides the trigger, and no history
    of fewer than two expenses yields any.  With two earlier occurrences,
    30 days apart, analysing the third stores one pattern and one
    suggestion, with frequency monthly and confidence 1.0, above 0.6. *)
Theorem scenarioA_needs_two_similar :
  Scenario.analyze 1 [0] Scenario.world = Returns Scenario.world
  /\ (forall calendar uuidSource now expense allExpenses w,
        List.length allExpenses < 2 ->
        analyzeExpenseForPatterns calendar uuidSource now expense allExpenses w
        = Returns w)
  /\ Scenario.analyze 2 [0; 1] Scenario.world
     = Returns (mkWorld Scenario.heap
                  (mkDetector [Scenario.pattern] [Scenario.suggestion]) 2)
  /\ RecurringPattern.frequency (RecurringSuggestion.pattern Scenario.suggestion)
     = monthly
  /\ Double_lt 0.6%float
       (RecurringPattern.confidence (RecurringSuggestion.pattern Scenario.suggestion)).
Proof.
  split; [vm_compute; reflexivity|].
  split.
  { intros calendar uuidSource now expense allExpenses w H.
    now apply analyzeExpenseForPatterns_short_history. }
  split; [vm_compute; reflexivity|].
  split; reflexivity.
Qed.

(** C1, as stated, fails: analysing the second expense with the first as
    history returns no suggestion at all. *)
Lemma scenarioA_no_suggestion :
  ~ exists w s,
      Scenario.analyze 1 [0] Scenario.world = Returns w
      /\ In s (suggestions (detector w))
      /\ RecurringPattern.frequency (RecurringSuggestion.pattern s) = monthly
      /\ Double_lt 0.6%float (RecurringSuggestion.confidence s).
Proof.
  intros (w & s & H & Hin & _).
  assert (E : Scenario.analyze 1 [0] Scenario.world = Returns Scenario.world)
    by (vm_compute; reflexivity).
  rewrite E in H. apply Returns_inj in H. subst w. exact Hin.
Qed.

(** C2, on the code. Analysing the third and then the fourth occurrence of
    one series, each with the whole history, leaves two stored patterns
    with the same title and category: each pattern gets an identifier of
    its own, so the look-up by identifier never finds the earlier one.
    Analysing the same expense twice does the same. *)
Theorem repeated_analysis_stores_two_patterns :
  exists w1 w2 w2' p1 p2,
    Scenario.analyze 2 [0; 1; 2] Scenario.world = Returns w1
    /\ Scenario.analyze 3 [0; 1; 2; 3] w1 = Returns w2
    /\ detectedPatterns (detector w1) = [p1]
    /\ detectedPatterns (detector w2) = [p1; p2]
    /\ RecurringPattern.title p1 = "Netflix"%string
    /\ RecurringPattern.title p2 = "Netflix"%string
    /\ RecurringPattern.category p1 = "Entertainment"%string
    /\ RecurringPattern.category p2 = "Entertainment"%string
    /\ RecurringPattern.id p1 <> RecurringPattern.id p2
    /\ Scenario.analyze 2 [0; 1; 2] w1 = Returns w2'
    /\ List.length (detectedPatterns (detector w2')) = 2.
Proof.
  eexists (mkWorld Scenario.heap
             (mkDetector [Scenario.pattern] [Scenario.suggestion]) 2).
  eexists (mkWorld Scenario.heap
             (mkDetector
                [Scenario.pattern;
                 RecurringPattern.make 2%N "Netflix"%string "Entertainment"%string
                   93.0%float monthly 1.0%float (Scenario.secondsOfDays 90)
                   (Some (Scenario.secondsOfDays 120))]
                [Scenario.suggestion;
                 RecurringSuggestion.make 3%N 3%nat
                   (RecurringPattern.make 2%N "Netflix"%string "Entertainment"%string
                      93.0%float monthly 1.0%float (Scenario.secondsOfDays 90)
                      (Some (Scenario.secondsOfDays 120)))
                   1.0%float])
             4).
  eexists (mkWorld Scenario.heap
             (mkDetector
                [Scenario.pattern;
                 RecurringPattern.make 2%N "Netflix"%string "Entertainment"%string
                   93.0%float monthly 1.0%float (Scenario.secondsOfDays 60)
                   (Some (Scenario.secondsOfDays 91))]
                [Scenario.suggestion;
                 RecurringSuggestion.make 3%N 2%nat
                   (RecurringPattern.make 2%N "Netflix"%string "Entertainment"%string
                      93.0%float monthly 1.0%float (Scenario.secondsOfDays 60)
                      (Some (Scenario.secondsOfDays 91)))
                   1.0%float])
             4).
  eexists _, _.
  split; [vm_compute; reflexivity|].
  split; [vm_compute; reflexivity|].
  split; [reflexivity|].
  split; [reflexivity|].
  repeat (split; [reflexivity|]).
  split; [discriminate|].
  split; [vm_compute; reflexivity | reflexivity].
Qed.

Lemma removeAll_idempotent {A : Type} (shouldBeRemoved : A -> bool) (l : list A) :
  removeAll shouldBeRemoved (removeAll shouldBeRemoved l) = removeAll shouldBeRemoved l.
Proof.
  unfold removeAll. induction l as [|x l IH]; [reflexivity|].
  cbn [filter]. destruct (negb (shouldBeRemoved x)) eqn:E; [|exact IH].
  cbn [filter]. rewrite E, IH. reflexivity.
Qed.

Lemma removeAll_none {A : Type} (shouldBeRemoved : A -> bool) (l : list A) :
  (forall x, In x l -> shouldBeRemoved x = false) -> removeAll shouldBeRemoved l = l.
Proof.
  unfold removeAll. induction l as [|x l IH]; intros H; [reflexivity|].
  cbn [filter]. rewrite (H x (or_introl eq_refl)). cbn [negb].
  rewrite IH; [reflexivity|]. intros y Hy. apply H. now right.
Qed.

Lemma removeAll_In {A : Type} (shouldBeRemoved : A -> bool) (l : list A) (x : A) :
  In x (removeAll shouldBeRemoved l) <-> In x l /\ shouldBeRemoved x = false.
Proof.
  unfold removeAll. rewrite filter_In, negb_true_iff. reflexivity.
Qed.

(** C8. Dismissing a suggestion twice gives the state a single dismissal
    gives; dismissing an identifier that no stored suggestion carries
    leaves the detector as it was; the stored patterns are never touched.
    [dismissSuggestion] is a total function: there is no error to raise. *)
Theorem dismissSuggestion_idempotent (d : RecurringExpenseDetector)
    (suggestion : RecurringSuggestion.t) :
  dismissSuggestion suggestion (dismissSuggestion suggestion d)
  = dismissSuggestion suggestion d
  /\ ((forall s, In s (suggestions d) ->
                 RecurringSuggestion.id s <> RecurringSuggestion.id suggestion) ->
      dismissSuggestion suggestion d = d)
  /\ detectedPatterns (dismissSuggestion suggestion d) = detectedPatterns d
  /\ (forall s, In s (suggestions (dismissSuggestion suggestion d)) <->
                In s (suggestions d)
                /\ RecurringSuggestion.id s <> RecurringSuggestion.id suggestion).
Proof.
  unfold dismissSuggestion. cbn [detectedPatterns suggestions].
  split; [now rewrite removeAll_idempotent|].
  split.
  { intros H. rewrite removeAll_none; [now destruct d|].
    intros s Hs. apply N.eqb_neq. now apply H. }
  split; [reflexivity|].
  intros s. rewrite removeAll_In, N.eqb_neq. reflexivity.
Qed.

Lemma optional_eqb_N_refl (x : option UUID) : optional_eqb N.eqb x x = true.
Proof. destruct x; simpl; [apply N.eqb_refl | reflexivity]. Qed.

(** C9. [markAsRecurring] leaves no suggestion that refers to the expense,
    however many there were; the expense object then reads [isRecurring]
    true, nothing else of it or of any other object changes; the stored
    patterns stay as they were, and so does every suggestion for an expense
    with another identifier. *)
Theorem markAsRecurring_promotes (expense : ExpenseRef) (w : World) :
  (forall s, In s (suggestions (detector (markAsRecurring expense w))) ->
             RecurringSuggestion.expense s <> expense)
  /\ Expense.isRecurring (objects (markAsRecurring expense w) expense) = true
  /\ objects (markAsRecurring expense w) expense
     = Expense.setRecurring (objects w expense) true
  /\ (forall other, other <> expense ->
                    objects (markAsRecurring expense w) other = objects w other)
  /\ detectedPatterns (detector (markAsRecurring expense w))
     = detectedPatterns (detector w)
  /\ (forall s, In s (suggestions (detector w)) ->
                optional_eqb N.eqb
                  (Expense.id (objects w (RecurringSuggestion.expense s)))
                  (Expense.id (objects w expense)) = false ->
                In s (suggestions (detector (markAsRecurring expense w)))).
Proof.
  unfold markAsRecurring. cbn [objects detector suggestions detectedPatterns].
  split.
  { intros s Hs E. apply removeAll_In in Hs. destruct Hs as [_ Hs].
    rewrite E, optional_eqb_N_refl in Hs. discriminate. }
  rewrite Nat.eqb_refl.
  split; [reflexivity|]. split; [reflexivity|].
  split.
  { intros other Hother. now apply Nat.eqb_neq in Hother as ->. }
  split; [reflexivity|].
  intros s Hin Hid. apply removeAll_In. auto.
Qed.

(** C10. [getSuggestedRecurring] does not read its argument: for any two
    argument lists it returns the same list, the expense of each stored
    suggestion in the order of the list; and the list is in insertion order,
    a call of the detector adding its suggestion at the end. *)
Theorem getSuggestedRecurring_ignores_argument (d : RecurringExpenseDetector)
    (expenses expenses' : list ExpenseRef) :
  getSuggestedRecurring d expenses = getSuggestedRecurring d expenses'
  /\ getSuggestedRecurring d expenses
     = map RecurringSuggestion.expense (suggestions d)
  /\ (forall calendar uuidSource now expense allExpenses w w',
        detector w = d ->
        analyzeExpenseForPatterns calendar uuidSource now expense allExpenses w
        = Returns w' ->
        getSuggestedRecurring (detector w') expenses'
        = getSuggestedRecurring d expenses
        \/ getSuggestedRecurring (detector w') expenses'
           = getSuggestedRecurring d expenses ++ [expense]).
Proof.
  split; [reflexivity|]. split; [reflexivity|].
  intros calendar uuidSource now expense allExpenses w w' <- H.
  apply analyzeExpenseForPatterns_suggestions in H.
  destruct H as (added & E & [->|(s & -> & Hs)]); unfold getSuggestedRecurring;
    rewrite E, map_app; cbn [map].
  - left. now rewrite app_nil_r.
  - right. now rewrite Hs.
Qed.

(** * Further properties of the detector *)

From Stdlib Require Import Sorted Permutation.

(** ** Counts as doubles *)

Section Conversion.

Local Open Scope Z_scope.

Lemma digits2_pos_size p : digits2_pos p = Pos.size p.
Proof. induction p; simpl; congruence. Qed.

Lemma shr_1_div2 mrs : 0 <= shr_m mrs -> shr_m (shr_1 mrs) = shr_m mrs / 2.
Proof.
  destruct mrs as [m r s]. cbn [shr_m]. intros H.
  rewrite <- Z.div2_div. destruct m as [|[p|p|]|p]; try reflexivity; lia.
Qed.

Lemma iter_shr_1 k : forall mrs,
  0 <= shr_m mrs -> shr_m (iter_pos shr_1 k mrs) = shr_m mrs / 2 ^ Zpos k.
Proof.
  induction k as [k IH|k IH|]; intros mrs H; cbn [iter_pos].
  - assert (H1 : 0 <= shr_m (shr_1 mrs))
      by (rewrite shr_1_div2 by assumption; apply Z.div_pos; lia).
    assert (H2 : 0 <= shr_m (iter_pos shr_1 k (shr_1 mrs)))
      by (rewrite IH by assumption; apply Z.div_pos; lia).
    rewrite IH, IH, shr_1_div2 by assumption.
    replace (Zpos k~1) with (1 + Zpos k + Zpos k) by lia.
    rewrite !Z.pow_add_r, Z.pow_1_r by lia.
    rewrite !Z.div_div by lia. f_equal. lia.
  - assert (H2 : 0 <= shr_m (iter_pos shr_1 k mrs))
      by (rewrite IH by assumption; apply Z.div_pos; lia).
    rewrite IH, IH by assumption.
    replace (Zpos k~0) with (Zpos k + Zpos k) by lia.
    rewrite !Z.pow_add_r by lia.
    rewrite !Z.div_div by lia. f_equal.
  - rewrite shr_1_div2 by assumption. reflexivity.
Qed.

(** Shifting a positive mantissa to its canonical exponent keeps it positive. *)
Lemma shr_fexp_positive m e l :
  0 < m -> SpecFloat.emin prec emax <= e ->
  0 < shr_m (fst (shr_fexp prec emax m e l))
  /\ SpecFloat.emin prec emax <= snd (shr_fexp prec emax m e l).
Proof.
  intros Hm He. unfold shr_fexp, shr.
  assert (Hrec : shr_m (shr_record_of_loc m l) = m)
    by (destruct l as [|[| |]]; reflexivity).
  destruct (fexp prec emax (Zdigits2 m + e) - e) as [|k|k] eqn:Hk; cbn [fst snd];
    rewrite ?Hrec; try (split; assumption).
  split; [|lia].
  rewrite iter_shr_1 by (rewrite Hrec; lia). rewrite Hrec.
  apply Z.div_str_pos. split; [lia|].
  destruct m as [|p|p]; try lia. cbn [Zdigits2] in Hk. rewrite digits2_pos_size in Hk.
  pose proof (Pos.size_le p) as Hsize.
  assert (Hpow : 2 ^ Zpos k * 2 <= 2 ^ Zpos (Pos.size p)).
  { replace (2 ^ Zpos k * 2) with (2 ^ (Zpos k + 1))
      by (rewrite Z.pow_add_r by lia; lia).
    apply Z.pow_le_mono_r; [lia|].
    unfold fexp, SpecFloat.emin, prec, emax in *. lia. }
  assert (Hp : 2 ^ Zpos (Pos.size p) <= 2 * Zpos p).
  { rewrite <- Pos2Z.inj_pow. lia. }
  lia.
Qed.

Lemma round_nearest_even_positive m l : 0 < m -> 0 < round_nearest_even m l.
Proof.
  intros H. destruct l as [|[| |]]; cbn [round_nearest_even]; try lia.
  destruct (Z.even m); lia.
Qed.

(** Rounding a positive mantissa at a representable exponent gives a
    positive number or overflows to positive infinity. *)
Lemma binary_round_aux_positive m e l :
  0 < m -> SpecFloat.emin prec emax <= e ->
  binary_round_aux prec emax false m e l = S754_infinity false
  \/ exists m' e', binary_round_aux prec emax false m e l = S754_finite false m' e'.
Proof.
  intros Hm He. unfold binary_round_aux.
  pose proof (shr_fexp_positive m e l Hm He) as [H1 H1e].
  destruct (shr_fexp prec emax m e l) as [mrs' e']. cbn [fst snd] in H1, H1e.
  pose proof (round_nearest_even_positive (shr_m mrs') (loc_of_shr_record mrs') H1)
    as Hr.
  pose proof (shr_fexp_positive _ e' loc_Exact Hr H1e) as [H2 _].
  destruct (shr_fexp prec emax _ e' loc_Exact) as [mrs'' e'']. cbn [fst] in H2.
  destruct (shr_m mrs'') as [|m'|m']; try lia.
  destruct (e'' <=? emax - prec); eauto.
Qed.

(** The count of a non-empty collection converts to a positive double. *)
Lemma Double_of_Int_positive (n : nat) :
  (0 < n)%nat -> Z.of_nat n < 2 ^ 63 ->
  Prim2SF (Double_of_Int n) = S754_infinity false
  \/ exists m e, Prim2SF (Double_of_Int n) = S754_finite false m e.
Proof.
  intros Hn Hbound. unfold Double_of_Int.
  rewrite of_uint63_spec, Uint63.of_Z_spec.
  rewrite Z.mod_small by (change wB with (2 ^ 63); lia).
  destruct (Z.of_nat n) as [|p|p] eqn:E; try lia.
  cbn [binary_normalize]. unfold binary_round.
  destruct (shl_align p 0 _) as [mz ez] eqn:Ha.
  apply binary_round_aux_positive; [lia|].
  unfold shl_align in Ha.
  destruct (_ - 0) eqn:Hd; injection Ha as <- <-;
    unfold fexp, SpecFloat.emin, prec, emax in *; lia.
Qed.

End Conversion.

Lemma is_finite_cases (x : Double) :
  PrimFloat.is_finite x = true ->
  (exists s, Prim2SF x = S754_zero s)
  \/ (exists s m e, Prim2SF x = S754_finite s m e).
Proof.
  unfold is_finite, is_nan, is_infinity.
  rewrite !FloatAxioms.eqb_spec, FloatAxioms.abs_spec.
  destruct (Prim2SF x) as [s|s| |s m e]; eauto; intros H; exfalso; revert H.
  - destruct s; vm_compute; discriminate.
  - vm_compute. discriminate.
Qed.

Lemma Double_zero_div (x : Double) :
  Prim2SF x = S754_infinity false \/ (exists m e, Prim2SF x = S754_finite false m e) ->
  (0 / x)%float = 0%float.
Proof.
  intros H. apply Prim2SF_inj. rewrite FloatAxioms.div_spec.
  destruct H as [->|(m & e & ->)]; reflexivity.
Qed.

Lemma Double_sub_self (x : Double) :
  PrimFloat.is_finite x = true -> (x - x)%float = 0%float.
Proof.
  intros H. apply Prim2SF_inj. rewrite FloatAxioms.sub_spec.
  destruct (is_finite_cases x H) as [(s & ->)|(s & m & e & ->)].
  - destruct s; reflexivity.
  - unfold SF64sub. cbn [SFsub]. rewrite Z.sub_diag. reflexivity.
Qed.

(** ** Levenshtein distance *)

Lemma editDistance_nil_l y : editDistance [] y = List.length y.
Proof. destruct y; reflexivity. Qed.

Lemma editDistance_refl x : editDistance x x = 0.
Proof.
  induction x as [|a x IH]; [reflexivity|].
  rewrite editDistance_cons, Ascii.eqb_refl. exact IH.
Qed.

Lemma editDistance_zero : forall x y, editDistance x y = 0 <-> x = y.
Proof.
  induction x as [|a x IHx]; intros y.
  - rewrite editDistance_nil_l. destruct y; simpl; split; congruence.
  - destruct y as [|b y].
    + simpl. split; discriminate.
    + rewrite editDistance_cons. destruct (Ascii.eqb_spec a b) as [->|N].
      * rewrite IHx. split; congruence.
      * split; [discriminate | congruence].
Qed.

Lemma editDistance_bounds : forall x y,
  List.length x - List.length y <= editDistance x y
  /\ List.length y - List.length x <= editDistance x y
  /\ editDistance x y <= Nat.max (List.length x) (List.length y).
Proof.
  induction x as [|a x IHx]; intros y.
  - rewrite editDistance_nil_l. simpl. lia.
  - induction y as [|b y IHy].
    + rewrite editDistance_nil_r. simpl. lia.
    + rewrite editDistance_cons.
      pose proof (IHx (b :: y)) as Hup. pose proof (IHx y) as Hdiag.
      destruct (Ascii.eqb a b); unfold min3; cbn [List.length] in *; lia.
Qed.

Lemma list_ascii_of_string_inj s t :
  list_ascii_of_string s = list_ascii_of_string t -> s = t.
Proof.
  intros H. apply (f_equal string_of_list_ascii) in H.
  now rewrite !string_of_list_ascii_of_string in H.
Qed.

Lemma rev_inj {A : Type} (x y : list A) : rev x = rev y -> x = y.
Proof.
  intros H. apply (f_equal (@rev A)) in H. now rewrite !rev_involutive in H.
Qed.

(** X1. On non-empty strings [levenshteinDistance] is 0 exactly when the
    two strings are equal. *)
Theorem levenshteinDistance_zero_iff (str1 str2 : string) :
  String.length str1 <> 0 -> String.length str2 <> 0 ->
  (levenshteinDistance str1 str2 = Returns 0 <-> str1 = str2).
Proof.
  intros H1 H2. rewrite levenshteinDistance_editDistance by assumption.
  split.
  - intros H. apply Returns_inj in H. apply editDistance_zero in H.
    apply list_ascii_of_string_inj. now apply rev_inj.
  - intros ->. f_equal. now apply editDistance_zero.
Qed.

Lemma levenshteinDistance_zero_iff_witness :
  levenshteinDistance "Netflix" "Netflix" = Returns 0
  <-> "Netflix"%string = "Netflix"%string.
Proof.
  apply (levenshteinDistance_zero_iff "Netflix" "Netflix"); discriminate.
Defined.

(** X2. The distance [levenshteinDistance] returns lies between the
    difference of the two lengths and the greater length. *)
Theorem levenshteinDistance_bounds (str1 str2 : string) (d : nat) :
  levenshteinDistance str1 str2 = Returns d ->
  String.length str1 - String.length str2 <= d
  /\ String.length str2 - String.length str1 <= d
  /\ d <= Nat.max (String.length str1) (String.length str2).
Proof.
  intros H.
  destruct (Nat.eq_dec (String.length str1) 0) as [E1|N1];
    [|destruct (Nat.eq_dec (String.length str2) 0) as [E2|N2]].
  - unfold levenshteinDistance in H.
    rewrite !length_list_ascii_of_string, E1 in H. discriminate.
  - unfold levenshteinDistance in H.
    rewrite !length_list_ascii_of_string, E2, orb_true_r in H. discriminate.
  - rewrite levenshteinDistance_editDistance in H by assumption.
    apply Returns_inj in H. subst d.
    pose proof (editDistance_bounds (rev (list_ascii_of_string str1))
                  (rev (list_ascii_of_string str2))) as B.
    rewrite !length_rev, !length_list_ascii_of_string in B. exact B.
Qed.

Lemma levenshteinDistance_bounds_witness :
  String.length "kitten" - String.length "sitting" <= 3
  /\ String.length "sitting" - String.length "kitten" <= 3
  /\ 3 <= Nat.max (String.length "kitten") (String.length "sitting").
Proof.
  apply (levenshteinDistance_bounds "kitten" "sitting" 3). reflexivity.
Defined.

(** ** Similarity of equal records *)

Lemma amountSimilarity_refl (a : Double) :
  PrimFloat.is_finite a = true -> amountSimilarity a a = 1%float.
Proof.
  intros H. unfold amountSimilarity, max_Double.
  rewrite (Double_sub_self a H).
  replace (if PrimFloat.leb a a then a else a) with a
    by (destruct (PrimFloat.leb a a); reflexivity).
  destruct (PrimFloat.ltb 0 a) eqn:Hpos; [|reflexivity].
  change (PrimFloat.abs 0) with 0%float.
  rewrite Double_zero_div; [reflexivity|].
  rewrite FloatAxioms.ltb_spec in Hpos.
  destruct (is_finite_cases a H) as [(s & E)|(s & m & e & E)]; rewrite E in *.
  - discriminate.
  - destruct s; [discriminate|eauto].
Qed.

Lemma stringSimilarity_refl (s : string) :
  (Z.of_nat (String.length s) < 2 ^ 63)%Z -> stringSimilarity s s = Returns 1%float.
Proof.
  intros Hlen. unfold stringSimilarity, isEmpty.
  destruct (Nat.eqb_spec (String.length s) 0) as [E|N]; [reflexivity|].
  cbn [negb andb]. rewrite Nat.ltb_irrefl.
  rewrite levenshteinDistance_editDistance, editDistance_refl by assumption.
  cbn [bind]. f_equal.
  change (Double_of_Int 0) with 0%float.
  rewrite Double_zero_div; [reflexivity|].
  apply Double_of_Int_positive; [lia|assumption].
Qed.

(** Records that agree on amount, title and category have similarity 1.0. *)
Lemma calculateSimilarity_same_fields (a b : Expense.t) :
  Expense.amount b = Expense.amount a ->
  Expense.title b = Expense.title a ->
  Expense.category b = Expense.category a ->
  PrimFloat.is_finite (Expense.amount a) = true ->
  (Z.of_nat (String.length (coalesce (Expense.title a) EmptyString)) < 2 ^ 63)%Z ->
  calculateSimilarity a b = Returns 1%float.
Proof.
  intros Ha Ht Hc Hfin Hlen.
  unfold calculateSimilarity, titleSimilarity, categorySimilarity.
  rewrite Ha, Ht, Hc.
  rewrite (amountSimilarity_refl _ Hfin), (stringSimilarity_refl _ Hlen).
  replace (optional_eqb String.eqb (Expense.category a) (Expense.category a)) with true.
  - vm_compute. reflexivity.
  - symmetry. apply optional_eqb_eq. reflexivity.
Qed.

(** X3. Similarity is reflexive: an expense with a finite amount (and a
    title whose length is an [Int]) has similarity exactly 1.0 with itself. *)
Theorem calculateSimilarity_reflexive (a : Expense.t) :
  PrimFloat.is_finite (Expense.amount a) = true ->
  (Z.of_nat (String.length (coalesce (Expense.title a) EmptyString)) < 2 ^ 63)%Z ->
  calculateSimilarity a a = Returns 1%float.
Proof. intros Hfin Hlen. now apply calculateSimilarity_same_fields. Qed.

Lemma calculateSimilarity_reflexive_witness :
  calculateSimilarity (Scenario.netflix 100 0) (Scenario.netflix 100 0)
  = Returns 1%float.
Proof.
  apply (calculateSimilarity_reflexive (Scenario.netflix 100 0));
    vm_compute; reflexivity.
Defined.

(** ** The cluster *)

Lemma filterM_In {A : Type} (p : A -> Outcome bool) (l kept : list A) :
  filterM p l = Returns kept ->
  forall x, In x kept <-> In x l /\ p x = Returns true.
Proof.
  revert kept. induction l as [|y rest IH]; intros kept H x.
  - apply Returns_inj in H. subst. simpl. tauto.
  - cbn [filterM] in H. apply bind_Returns in H. destruct H as (keep & Hy & H).
    apply bind_Returns in H. destruct H as (kept' & Hk & H).
    apply Returns_inj in H. specialize (IH kept' Hk x). subst kept.
    destruct keep; cbn [In]; rewrite IH; split.
    + intros [<-|[? ?]]; auto.
    + intros [[<-|?] ?]; auto.
    + intros [? ?]; auto.
    + intros [[<-|?] Hx]; auto. rewrite Hy in Hx. apply Returns_inj in Hx.
      discriminate.
Qed.

Lemma filterM_skip {A : Type} (p : A -> Outcome bool) (skip : A -> bool)
    (l : list A) :
  (forall x, skip x = true -> p x = Returns false) ->
  filterM p l = filterM p (filter (fun x => negb (skip x)) l).
Proof.
  intros H. induction l as [|y rest IH]; [reflexivity|].
  cbn [filterM filter]. destruct (skip y) eqn:E; cbn [negb].
  - rewrite (H y E). cbn [bind]. rewrite <- IH.
    destruct (filterM p rest); reflexivity.
  - cbn [filterM]. now rewrite IH.
Qed.

Lemma findSimilarExpenses_In (heap : Store) (expense : ExpenseRef)
    (allExpenses similarExpenses : list ExpenseRef) :
  findSimilarExpenses heap expense allExpenses = Returns similarExpenses ->
  forall other,
    In other similarExpenses
    <-> In other allExpenses
        /\ sameIdentifier heap other expense = false
        /\ exists similarity,
             calculateSimilarity (heap expense) (heap other) = Returns similarity
             /\ Double_le threshold similarity.
Proof.
  intros H other. rewrite (filterM_In _ _ _ H). unfold sameIdentifier, Double_le.
  destruct (optional_eqb N.eqb _ _).
  - split; [intros [_ E]; apply Returns_inj in E; discriminate|].
    intros (_ & E & _). discriminate.
  - destruct (calculateSimilarity_returns (heap expense) (heap other)) as [s Hs].
    rewrite Hs. cbn [bind]. split.
    + intros [Ha E]. apply Returns_inj in E. eauto 6.
    + intros (Ha & _ & s' & E & Hle). apply Returns_inj in E. subst s'.
      split; [assumption|]. now rewrite Hle.
Qed.

(** X4. The cluster holds exactly the history entries whose identifier
    differs from the trigger's and whose similarity to the trigger is at
    least 0.8; the trigger itself is never in it. *)
Theorem findSimilarExpenses_cluster (heap : Store) (expense : ExpenseRef)
    (allExpenses similarExpenses : list ExpenseRef) :
  findSimilarExpenses heap expense allExpenses = Returns similarExpenses ->
  (forall other,
     In other similarExpenses
     <-> In other allExpenses
         /\ sameIdentifier heap other expense = false
         /\ exists similarity,
              calculateSimilarity (heap expense) (heap other) = Returns similarity
              /\ Double_le threshold similarity)
  /\ ~ In expense similarExpenses
  /\ List.length similarExpenses <= List.length allExpenses.
Proof.
  intros H. pose proof (findSimilarExpenses_In _ _ _ _ H) as Hchar.
  split; [exact Hchar|]. split; [|exact (filterM_length _ _ _ H)].
  intros Hself. apply Hchar in Hself. destruct Hself as (_ & E & _).
  unfold sameIdentifier in E. now rewrite optional_eqb_N_refl in E.
Qed.

Lemma findSimilarExpenses_cluster_witness :
  (forall other,
     In other [0; 1]
     <-> In other [0; 1; 2; 4]
         /\ sameIdentifier Scenario.heap other 2 = false
         /\ exists similarity,
              calculateSimilarity (Scenario.heap 2) (Scenario.heap other)
              = Returns similarity
              /\ Double_le threshold similarity)
  /\ ~ In 2 [0; 1]
  /\ List.length [0; 1] <= List.length [0; 1; 2; 4].
Proof.
  apply (findSimilarExpenses_cluster Scenario.heap 2 [0; 1; 2; 4] [0; 1]).
  vm_compute. reflexivity.
Defined.

(** X5. A history entry that repeats the trigger's amount, title and
    category under another identifier is always in the cluster. *)
Theorem findSimilarExpenses_keeps_duplicates (heap : Store)
    (expense other : ExpenseRef) (allExpenses similarExpenses : list ExpenseRef) :
  findSimilarExpenses heap expense allExpenses = Returns similarExpenses ->
  In other allExpenses ->
  sameIdentifier heap other expense = false ->
  Expense.amount (heap other) = Expense.amount (heap expense) ->
  Expense.title (heap other) = Expense.title (heap expense) ->
  Expense.category (heap other) = Expense.category (heap expense) ->
  PrimFloat.is_finite (Expense.amount (heap expense)) = true ->
  (Z.of_nat (String.length (coalesce (Expense.title (heap expense)) EmptyString))
   < 2 ^ 63)%Z ->
  In other similarExpenses.
Proof.
  intros H Hin Hid Ha Ht Hc Hfin Hlen.
  apply (findSimilarExpenses_In _ _ _ _ H). split; [assumption|].
  split; [assumption|]. exists 1%float. split.
  - now apply calculateSimilarity_same_fields.
  - vm_compute. reflexivity.
Qed.

Lemma findSimilarExpenses_keeps_duplicates_witness : In 0 [0; 1].
Proof.
  apply (findSimilarExpenses_keeps_duplicates Scenario.heap 2 0 [0; 1; 2; 4] [0; 1]);
    try (vm_compute; reflexivity).
  now left.
Defined.

(** X6. Entries of the history that carry the trigger's identifier, the
    trigger itself among them, do not influence the analysis: the caller may
    pass its whole list of expenses. *)
Theorem analyzeExpenseForPatterns_ignores_trigger_in_history (calendar : Calendar)
    (uuidSource : nat -> UUID) (now : Date) (expense : ExpenseRef)
    (allExpenses : list ExpenseRef) (w : World) :
  analyzeExpenseForPatterns calendar uuidSource now expense
    (filter (fun other => negb (sameIdentifier (objects w) other expense)) allExpenses) w
  = analyzeExpenseForPatterns calendar uuidSource now expense allExpenses w
  /\ checkForRecurringPattern calendar uuidSource now (expense :: allExpenses) expense w
     = checkForRecurringPattern calendar uuidSource now allExpenses expense w.
Proof.
  assert (Hskip : forall l,
            findSimilarExpenses (objects w) expense l
            = findSimilarExpenses (objects w) expense
                (filter (fun other => negb (sameIdentifier (objects w) other expense)) l)).
  { intros l. unfold findSimilarExpenses. apply filterM_skip.
    intros other E. unfold sameIdentifier in E. now rewrite E. }
  unfold checkForRecurringPattern, analyzeExpenseForPatterns. split.
  - now rewrite <- Hskip.
  - rewrite (Hskip (expense :: allExpenses)), (Hskip allExpenses).
    cbn [filter]. unfold sameIdentifier at 1. rewrite optional_eqb_N_refl.
    reflexivity.
Qed.

(** ** Confidence *)

(** X7. The confidence is never negative and never NaN, whatever the gaps:
    a zero mean, which makes the coefficient of variation infinite or
    undefined, gives confidence 0. *)
Theorem determineFrequency_confidence_nonnegative (intervals : list TimeInterval) :
  Double_le 0%float (snd (determineFrequency intervals)).
Proof.
  destruct intervals as [|x l]; [reflexivity|].
  unfold determineFrequency. cbn [snd]. unfold max_Double, Double_le.
  match goal with
  | |- context [if PrimFloat.leb 0 ?y then _ else _] =>
      destruct (PrimFloat.leb 0 y) eqn:E
  end; [exact E | reflexivity].
Qed.

Lemma determineFrequency_cons (x : TimeInterval) (l : list TimeInterval) :
  determineFrequency (x :: l)
  = (frequencyOfDays (averageOf (x :: l) / secondsPerDay),
     max_Double 0%float
       (1.0 - PrimFloat.sqrt
                (reduce_add (map (fun y => pow_2 (y - averageOf (x :: l))) (x :: l))
                 / Double_of_Int (List.length (x :: l)))
              / averageOf (x :: l)))%float.
Proof. reflexivity. Qed.

Lemma reduce_add_zeros (n : nat) : reduce_add (repeat 0%float n) = 0%float.
Proof.
  unfold reduce_add. induction n as [|n IH]; [reflexivity|].
  cbn [repeat fold_left]. exact IH.
Qed.

(** Gaps that are all zero: daily, with confidence 0. *)
Lemma determineFrequency_zeros (n : nat) :
  0 < n -> (Z.of_nat n < 2 ^ 63)%Z ->
  determineFrequency (repeat 0%float n) = (daily, 0%float).
Proof.
  intros Hn Hbound. destruct n as [|n]; [lia|].
  change (repeat 0%float (S n)) with (0%float :: repeat 0%float n).
  rewrite determineFrequency_cons.
  change (0%float :: repeat 0%float n) with (repeat 0%float (S n)).
  assert (Hmean : averageOf (repeat 0%float (S n)) = 0%float).
  { unfold averageOf. rewrite reduce_add_zeros, repeat_length.
    apply Double_zero_div. now apply Double_of_Int_positive. }
  rewrite Hmean, map_repeat.
  change (pow_2 (0 - 0)%float) with 0%float.
  rewrite reduce_add_zeros, repeat_length.
  rewrite (Double_zero_div (Double_of_Int (S n)))
    by now apply Double_of_Int_positive.
  vm_compute. reflexivity.
Qed.

Lemma intervalsFrom_same_instant (heap : Store) (t : Date) (previous : ExpenseRef)
    (rest : list ExpenseRef) :
  PrimFloat.is_finite t = true ->
  (forall e, In e (previous :: rest) -> Expense.date (heap e) = Some t) ->
  intervalsFrom heap previous rest = repeat 0%float (List.length rest).
Proof.
  intros Hfin. revert previous. induction rest as [|current rest IH];
    intros previous H; [reflexivity|].
  cbn [intervalsFrom]. unfold dateOf.
  rewrite (H previous (or_introl eq_refl)).
  rewrite (H current (or_intror (or_introl eq_refl))).
  rewrite (Double_sub_self t Hfin). cbn [List.length repeat]. f_equal.
  apply IH. intros e He. apply H. now right.
Qed.

Lemma intervalsFrom_undated (heap : Store) (previous : ExpenseRef)
    (rest : list ExpenseRef) :
  (forall e, In e (previous :: rest) -> Expense.date (heap e) = None) ->
  intervalsFrom heap previous rest = [].
Proof.
  revert previous. induction rest as [|current rest IH]; intros previous H;
    [reflexivity|].
  cbn [intervalsFrom]. unfold dateOf. rewrite (H previous (or_introl eq_refl)).
  apply IH. intros e He. apply H. now right.
Qed.

(** X8. Expenses that all carry one and the same date never form a
    pattern: every gap is zero and the confidence is 0. *)
Theorem detectPattern_same_instant (calendar : Calendar) (uuidSource : nat -> UUID)
    (now : Date) (w : World) (expense : ExpenseRef)
    (similarExpenses : list ExpenseRef) (t : Date) :
  PrimFloat.is_finite t = true ->
  (forall e, In e (expense :: similarExpenses) ->
             Expense.date (objects w e) = Some t) ->
  (Z.of_nat (List.length (expense :: similarExpenses)) < 2 ^ 63)%Z ->
  detectPattern calendar uuidSource now w expense similarExpenses = Returns (None, w).
Proof.
  intros Hfin Hdates Hbound. unfold detectPattern.
  set (sortedExpenses := sorted (byDate now (objects w)) ([expense] ++ similarExpenses)).
  assert (Hlen : List.length sortedExpenses = List.length (expense :: similarExpenses))
    by apply sorted_length.
  destruct (Nat.ltb_spec (List.length sortedExpenses) 2) as [|Hge]; [reflexivity|].
  destruct sortedExpenses as [|first rest] eqn:E; [simpl in Hge; lia|].
  cbn [calculateIntervals bind].
  rewrite (intervalsFrom_same_instant (objects w) t first rest Hfin).
  - rewrite determineFrequency_zeros; [reflexivity| |]; cbn [List.length] in *; lia.
  - intros e He. apply Hdates.
    apply (sorted_In (byDate now (objects w)) e ([expense] ++ similarExpenses)).
    fold sortedExpenses. now rewrite E.
Qed.

Lemma detectPattern_same_instant_witness :
  detectPattern GregorianUTC.calendar Scenario.uuidSource Scenario.now Scenario.world
    0 [0; 0]
  = Returns (None, Scenario.world).
Proof.
  apply (detectPattern_same_instant GregorianUTC.calendar Scenario.uuidSource
           Scenario.now Scenario.world 0 [0; 0] (Scenario.secondsOfDays 0)).
  - vm_compute. reflexivity.
  - intros e [<-|[<-|[<-|[]]]]; reflexivity.
  - vm_compute. reflexivity.
Defined.

(** X9. Expenses without dates never form a pattern: there is no gap to
    measure. *)
Theorem detectPattern_undated (calendar : Calendar) (uuidSource : nat -> UUID)
    (now : Date) (w : World) (expense : ExpenseRef)
    (similarExpenses : list ExpenseRef) :
  (forall e, In e (expense :: similarExpenses) -> Expense.date (objects w e) = None) ->
  detectPattern calendar uuidSource now w expense similarExpenses = Returns (None, w).
Proof.
  intros Hdates. unfold detectPattern.
  set (sortedExpenses := sorted (byDate now (objects w)) ([expense] ++ similarExpenses)).
  destruct (List.length sortedExpenses <? 2); [reflexivity|].
  destruct sortedExpenses as [|first rest] eqn:E.
  - apply (f_equal (@List.length _)) in E. unfold sortedExpenses in E.
    rewrite sorted_length in E. discriminate.
  - cbn [calculateIntervals bind].
    rewrite (intervalsFrom_undated (objects w) first rest); [reflexivity|].
    intros e He. apply Hdates.
    apply (sorted_In (byDate now (objects w)) e ([expense] ++ similarExpenses)).
    fold sortedExpenses. now rewrite E.
Qed.

Lemma detectPattern_undated_witness :
  detectPattern GregorianUTC.calendar Scenario.uuidSource Scenario.now Scenario.world
    4 [5; 5]
  = Returns (None, Scenario.world).
Proof.
  apply (detectPattern_undated GregorianUTC.calendar Scenario.uuidSource
           Scenario.now Scenario.world 4 [5; 5]).
  intros e [<-|[<-|[<-|[]]]]; reflexivity.
Defined.

(** ** The order of dates *)

Lemma SFleb_trans x y z :
  SFleb x y = true -> SFleb y z = true -> SFleb x z = true.
Proof.
  unfold SFleb.
  destruct x as [sx|sx| |sx mx ex], y as [sy|sy| |sy my ey], z as [sz|sz| |sz mz ez];
    cbn [SFcompare]; try discriminate; try reflexivity;
    try (destruct sx; try discriminate; try reflexivity);
    try (destruct sy; try discriminate; try reflexivity);
    try (destruct sz; try discriminate; try reflexivity);
    change (Pos.compare_cont Eq ?a ?b) with (Pos.compare a b);
    destruct (Z.compare_spec ex ey); try discriminate;
    destruct (Z.compare_spec ey ez); try discriminate;
    destruct (Z.compare_spec ex ez); try reflexivity; try lia; subst;
    destruct (Pos.compare_spec mx my); try discriminate;
    destruct (Pos.compare_spec my mz); try discriminate;
    destruct (Pos.compare_spec mx mz); try reflexivity; try discriminate; lia.
Qed.

Lemma Double_le_trans x y z : Double_le x y -> Double_le y z -> Double_le x z.
Proof. unfold Double_le. rewrite !FloatAxioms.leb_spec. apply SFleb_trans. Qed.

Lemma Double_le_refl x : isNumber x -> Double_le x x.
Proof.
  unfold isNumber, Double_le. rewrite FloatAxioms.eqb_spec, FloatAxioms.leb_spec.
  unfold SFeqb, SFleb. destruct (SFcompare _ _) as [[| |]|]; auto.
Qed.

Lemma not_nan_isNumber x : Prim2SF x <> S754_nan -> isNumber x.
Proof.
  unfold isNumber. rewrite FloatAxioms.eqb_spec. unfold SFeqb.
  destruct (Prim2SF x) as [s|s| |s m e]; cbn [SFcompare]; intros H.
  - reflexivity.
  - destruct s; reflexivity.
  - contradiction.
  - change (Pos.compare_cont Eq m m) with (Pos.compare m m).
    destruct s; rewrite Z.compare_refl, Pos.compare_refl; reflexivity.
Qed.

Lemma Double_le_isNumber x y : Double_le x y -> isNumber x /\ isNumber y.
Proof.
  unfold Double_le. rewrite FloatAxioms.leb_spec. unfold SFleb. intros H.
  split; apply not_nan_isNumber; intros E; rewrite E in H;
    [|destruct (Prim2SF x)]; discriminate.
Qed.

(** Among numbers, what is not below is at least. *)
Lemma Double_not_lt_le x y :
  isNumber x -> isNumber y -> PrimFloat.ltb x y = false -> Double_le y x.
Proof.
  intros Hx Hy. unfold Double_le.
  rewrite FloatAxioms.ltb_spec, FloatAxioms.leb_spec. unfold SFltb, SFleb.
  rewrite (SFcompare_antisym (Prim2SF x) (Prim2SF y)).
  destruct (SFcompare (Prim2SF x) (Prim2SF y)) as [[| |]|] eqn:C;
    cbn [option_map CompOpp]; try reflexivity; try discriminate.
  intros _. apply SFcompare_None in C.
  destruct C as [C|C];
    [now apply isNumber_not_nan in Hx | now apply isNumber_not_nan in Hy].
Qed.

Lemma last_cons {A : Type} (l : list A) (a d : A) : last (a :: l) d = last l a.
Proof.
  revert a d. induction l as [|b l IH]; intros a d; [reflexivity|].
  change (last (a :: b :: l) d) with (last (b :: l) d).
  now rewrite (IH b d), (IH b a).
Qed.

Section SortedByKey.

Context {A : Type} (key : A -> Double).

Lemma insertSorted_ordered (x : A) (l : list A) :
  isNumber (key x) -> Forall (fun y => isNumber (key y)) l ->
  StronglySorted (keyOrdered key) l ->
  StronglySorted (keyOrdered key) (insertSorted (keyBelow key) x l).
Proof.
  intros Hx Hl Hs. induction Hs as [|y rest Hrest IH Hy]; cbn [insertSorted].
  - repeat constructor.
  - inversion Hl as [|? ? Hny Hnrest]; subst.
    unfold keyBelow at 1. destruct (PrimFloat.ltb (key y) (key x)) eqn:E.
    + constructor; [now apply IH|].
      apply Forall_forall. intros z Hz. apply insertSorted_In in Hz.
      destruct Hz as [->|Hz].
      * now apply Double_lt_le.
      * rewrite Forall_forall in Hy. now apply Hy.
    + assert (Hxy : keyOrdered key x y) by now apply Double_not_lt_le.
      constructor; [now constructor|].
      constructor; [exact Hxy|].
      apply Forall_forall. intros z Hz. rewrite Forall_forall in Hy.
      exact (Double_le_trans _ _ _ Hxy (Hy z Hz)).
Qed.

(** [sorted(by:)] sorts: on keys that are numbers the result ascends. *)
Lemma sorted_ordered (l : list A) :
  Forall (fun y => isNumber (key y)) l ->
  StronglySorted (keyOrdered key) (sorted (keyBelow key) l).
Proof.
  induction l as [|x l IH]; intros H; [constructor|].
  inversion H as [|? ? Hx Hl]; subst.
  unfold sorted. cbn [fold_right]. apply insertSorted_ordered; auto.
  apply Forall_forall. intros y Hy. apply sorted_In in Hy.
  rewrite Forall_forall in Hl. auto.
Qed.

Lemma ordered_last (l : list A) (z : A) :
  Forall (fun y => isNumber (key y)) l ->
  StronglySorted (keyOrdered key) l -> lastOf l = Some z ->
  forall x, In x l -> keyOrdered key x z.
Proof.
  intros Hn Hs. revert z. induction Hs as [|y rest Hrest IH Hy]; intros z Hz x Hx.
  - discriminate.
  - inversion Hn as [|? ? Hny Hnrest]; subst.
    destruct rest as [|y' rest'].
    + injection Hz as <-. destruct Hx as [<-|[]]. now apply Double_le_refl.
    + assert (Hz' : lastOf (y' :: rest') = Some z).
      { cbn [lastOf] in *. now rewrite last_cons in Hz. }
      destruct Hx as [<-|Hx].
      * rewrite Forall_forall in Hy. apply Hy. now apply lastOf_In.
      * now apply IH.
Qed.

End SortedByKey.

(** X10. When every merged expense carries a date that is a number, the
    [lastOccurrence] of a built pattern is the date of one of them and no
    merged expense is later. *)
Theorem lastOccurrence_latest (calendar : Calendar) (uuidSource : nat -> UUID)
    (now : Date) (w w' : World) (expense : ExpenseRef)
    (similarExpenses : list ExpenseRef) (pattern : RecurringPattern.t) :
  (forall e, In e (expense :: similarExpenses) ->
             exists d, Expense.date (objects w e) = Some d /\ isNumber d) ->
  detectPattern calendar uuidSource now w expense similarExpenses
  = Returns (Some pattern, w') ->
  (exists e, In e (expense :: similarExpenses)
             /\ Expense.date (objects w e)
                = Some (RecurringPattern.lastOccurrence pattern))
  /\ (forall e d, In e (expense :: similarExpenses) ->
                  Expense.date (objects w e) = Some d ->
                  Double_le d (RecurringPattern.lastOccurrence pattern)).
Proof.
  intros Hdates H. apply detectPattern_Some in H. cbv zeta in H.
  destruct H as (intervals & _ & _ & _ & ->).
  cbn [RecurringPattern.lastOccurrence].
  set (key := fun e => coalesce (dateOf (objects w) e) now).
  set (merged := [expense] ++ similarExpenses).
  change (sorted (byDate now (objects w)) merged) with (sorted (keyBelow key) merged).
  assert (Hnum : Forall (fun e => isNumber (key e)) (sorted (keyBelow key) merged)).
  { apply Forall_forall. intros e He. apply sorted_In in He.
    destruct (Hdates e He) as (d & Hd & Hn). unfold key, dateOf. now rewrite Hd. }
  assert (Hsorted : StronglySorted (keyOrdered key) (sorted (keyBelow key) merged)).
  { apply sorted_ordered. apply Forall_forall. intros e He.
    destruct (Hdates e He) as (d & Hd & Hn). unfold key, dateOf. now rewrite Hd. }
  destruct (lastOf_nonempty (sorted (keyBelow key) merged)) as [z Hz].
  { intros E. apply (f_equal (@List.length _)) in E.
    rewrite sorted_length in E. discriminate. }
  assert (Hzin : In z merged).
  { pose proof (lastOf_In _ _ Hz) as Hin. apply sorted_In in Hin. exact Hin. }
  destruct (Hdates z Hzin) as (dz & Hdz & _).
  assert (Elast : coalesce (lastDateOf (objects w) (sorted (keyBelow key) merged)) now
                  = dz).
  { unfold lastDateOf. rewrite Hz. unfold dateOf. now rewrite Hdz. }
  rewrite Elast. split.
  - exists z. split; assumption.
  - intros e d He Hd.
    assert (Hez : keyOrdered key e z)
      by (apply (ordered_last key _ z Hnum Hsorted Hz); now apply sorted_In).
    unfold keyOrdered, key, dateOf in Hez. rewrite Hd, Hdz in Hez. exact Hez.
Qed.

Lemma lastOccurrence_latest_witness :
  (exists e, In e [2; 0; 1]
             /\ Expense.date (objects Scenario.world e)
                = Some (RecurringPattern.lastOccurrence Scenario.pattern))
  /\ (forall e d, In e [2; 0; 1] ->
                  Expense.date (objects Scenario.world e) = Some d ->
                  Double_le d (RecurringPattern.lastOccurrence Scenario.pattern)).
Proof.
  apply (lastOccurrence_latest GregorianUTC.calendar Scenario.uuidSource
           Scenario.now Scenario.world
           (snd (newUUID Scenario.uuidSource Scenario.world))
           2 [0; 1] Scenario.pattern).
  - intros e [<-|[<-|[<-|[]]]]; eexists; split; reflexivity.
  - vm_compute. reflexivity.
Defined.

(** ** Upcoming patterns *)

(** X11. [getUpcomingRecurring] returns exactly the stored patterns whose
    predicted date lies between [now] and a week later (or at [now] itself
    when the calendar yields no date); a pattern without a prediction is
    never returned. *)
Theorem getUpcomingRecurring_window (calendar : Calendar) (now distantFuture : Date)
    (d : RecurringExpenseDetector) (pattern : RecurringPattern.t) :
  In pattern (getUpcomingRecurring calendar now distantFuture d)
  <-> In pattern (detectedPatterns d)
      /\ exists nextDate,
           RecurringPattern.nextPredicted pattern = Some nextDate
           /\ Double_le now nextDate
           /\ Double_le nextDate (coalesce (calendar day 7%Z now) now).
Proof.
  unfold getUpcomingRecurring. rewrite sorted_In, filter_In.
  destruct (RecurringPattern.nextPredicted pattern) as [nextDate|].
  - rewrite andb_true_iff. unfold Double_le. split.
    + intros (Hin & H1 & H2). eauto.
    + intros (Hin & t & [= <-] & H1 & H2). auto.
  - split; [intros [_ H]; discriminate | intros (_ & t & H & _); discriminate].
Qed.

Lemma getUpcomingRecurring_In (calendar : Calendar) (now distantFuture : Date)
    (d : RecurringExpenseDetector) (pattern : RecurringPattern.t) :
  In pattern (getUpcomingRecurring calendar now distantFuture d) ->
  exists nextDate,
    RecurringPattern.nextPredicted pattern = Some nextDate /\ isNumber nextDate.
Proof.
  unfold getUpcomingRecurring. rewrite sorted_In, filter_In. intros [_ H].
  destruct (RecurringPattern.nextPredicted pattern) as [t|]; [|discriminate].
  apply andb_true_iff in H. destruct H as [H _].
  exists t. split; [reflexivity|]. now apply (Double_le_isNumber now t).
Qed.

Lemma insertSorted_ext {A : Type} (lt lt' : A -> A -> bool) (x : A) (l : list A) :
  (forall y, In y l -> lt y x = lt' y x) ->
  insertSorted lt x l = insertSorted lt' x l.
Proof.
  induction l as [|y l IH]; intros H; [reflexivity|].
  cbn [insertSorted]. rewrite <- (H y (or_introl eq_refl)).
  destruct (lt y x); [|reflexivity].
  f_equal. apply IH. intros z Hz. apply H. now right.
Qed.

Lemma sorted_ext {A : Type} (lt lt' : A -> A -> bool) (l : list A) :
  (forall x y, In x l -> In y l -> lt x y = lt' x y) ->
  sorted lt l = sorted lt' l.
Proof.
  induction l as [|x l IH]; intros H; [reflexivity|].
  unfold sorted in *. cbn [fold_right].
  rewrite <- IH by (intros a b Ha Hb; apply H; now right).
  apply insertSorted_ext. intros y Hy. apply H; [right|now left].
  now apply (sorted_In lt y l).
Qed.

(** X12. [getUpcomingRecurring] returns its patterns soonest first, and
    the result does not depend on [Date.distantFuture]. *)
Theorem getUpcomingRecurring_ascending (calendar : Calendar) (now distantFuture : Date)
    (d : RecurringExpenseDetector) :
  StronglySorted
    (fun pattern1 pattern2 =>
       exists date1 date2,
         RecurringPattern.nextPredicted pattern1 = Some date1
         /\ RecurringPattern.nextPredicted pattern2 = Some date2
         /\ Double_le date1 date2)
    (getUpcomingRecurring calendar now distantFuture d)
  /\ forall otherFuture,
       getUpcomingRecurring calendar now otherFuture d
       = getUpcomingRecurring calendar now distantFuture d.
Proof.
  split.
  - set (key := fun p => coalesce (RecurringPattern.nextPredicted p) distantFuture).
    pose proof (getUpcomingRecurring_In calendar now distantFuture d) as Hw.
    assert (Hs : StronglySorted (keyOrdered key)
                   (getUpcomingRecurring calendar now distantFuture d)).
    { unfold getUpcomingRecurring. apply (sorted_ordered key).
      apply Forall_forall. intros p Hp. apply filter_In in Hp. destruct Hp as [_ Hp].
      unfold key. destruct (RecurringPattern.nextPredicted p) as [t|]; [|discriminate].
      apply andb_true_iff in Hp. destruct Hp as [Hp _].
      now apply (Double_le_isNumber now t). }
    revert Hw Hs. generalize (getUpcomingRecurring calendar now distantFuture d).
    intros l Hw Hs. induction Hs as [|p rest Hrest IH Hp]; constructor.
    + apply IH. intros q Hq. apply Hw. now right.
    + apply Forall_forall. intros q Hq. rewrite Forall_forall in Hp.
      specialize (Hp q Hq). unfold keyOrdered, key in Hp.
      destruct (Hw p (or_introl eq_refl)) as (t & Ht & _).
      destruct (Hw q (or_intror Hq)) as (u & Hu & _).
      rewrite Ht, Hu in Hp. eauto.
  - intros otherFuture. unfold getUpcomingRecurring. apply sorted_ext.
    intros p q Hp Hq. apply filter_In in Hp, Hq.
    destruct Hp as [_ Hp], Hq as [_ Hq].
    destruct (RecurringPattern.nextPredicted p); [|discriminate].
    destruct (RecurringPattern.nextPredicted q); [|discriminate].
    reflexivity.
Qed.

(** ** What a call of the detector does *)

Section Analysis.

Variable calendar : Calendar.
Variable uuidSource : nat -> UUID.
Variable now : Date.

Lemma detectPattern_None (w w' : World) (expense : ExpenseRef)
    (similarExpenses : list ExpenseRef) :
  detectPattern calendar uuidSource now w expense similarExpenses = Returns (None, w') ->
  w' = w.
Proof.
  unfold detectPattern. intros H.
  destruct (List.length _ <? 2).
  { apply Returns_inj in H. now apply (f_equal snd) in H. }
  apply bind_Returns in H. destruct H as (intervals & _ & H).
  destruct (determineFrequency intervals) as [frequency confidence].
  destruct (negb _); apply Returns_inj in H.
  - now apply (f_equal snd) in H.
  - apply (f_equal fst) in H. discriminate.
Qed.

(** The outcomes of a call: nothing changes, or a pattern was built, stored
    unless its identifier is known, and suggested unless the expense is
    flagged. *)
Lemma analyzeExpenseForPatterns_outcome (expense : ExpenseRef)
    (allExpenses : list ExpenseRef) (w w' : World) :
  analyzeExpenseForPatterns calendar uuidSource now expense allExpenses w = Returns w' ->
  w' = w
  \/ exists similarExpenses pattern,
       findSimilarExpenses (objects w) expense allExpenses = Returns similarExpenses
       /\ 2 <= List.length similarExpenses
       /\ detectPattern calendar uuidSource now w expense similarExpenses
          = Returns (Some pattern, snd (newUUID uuidSource w))
       /\ RecurringPattern.id pattern = uuidSource (drawn w)
       /\ ((Expense.isRecurring (objects w expense) = true
            /\ w' = mkWorld (objects w)
                      (mkDetector (storePattern pattern (detectedPatterns (detector w)))
                         (suggestions (detector w)))
                      (S (drawn w)))
           \/ (Expense.isRecurring (objects w expense) = false
               /\ w' = mkWorld (objects w)
                         (mkDetector
                            (storePattern pattern (detectedPatterns (detector w)))
                            (suggestions (detector w)
                             ++ [RecurringSuggestion.make (uuidSource (S (drawn w)))
                                   expense pattern
                                   (RecurringPattern.confidence pattern)]))
                         (S (S (drawn w))))).
Proof.
  unfold analyzeExpenseForPatterns. intros H.
  apply bind_Returns in H. destruct H as (similarExpenses & Hs & H).
  destruct (Nat.leb_spec 2 (List.length similarExpenses)) as [Hlen|Hlen].
  2:{ apply Returns_inj in H. now left. }
  apply bind_Returns in H. destruct H as ([[pattern|] w1] & Hd & H).
  2:{ apply Returns_inj in H. subst w'. left. now apply detectPattern_None in Hd. }
  right. exists similarExpenses, pattern.
  pose proof (detectPattern_Some _ _ _ _ _ _ _ _ Hd) as Hp. cbv zeta in Hp.
  destruct Hp as (intervals & _ & _ & -> & Hp).
  assert (Hid : RecurringPattern.id pattern = uuidSource (drawn w)) by now rewrite Hp.
  repeat (split; [assumption|]).
  cbn [newUUID snd objects detector drawn] in H.
  destruct (Expense.isRecurring (objects w expense)); cbn [negb] in H;
    apply Returns_inj in H; subst w'; [left|right]; split; reflexivity.
Qed.

(** X13. A call never touches the expense objects and never removes or
    reorders what is stored: it appends at most one pattern and at most one
    suggestion, and draws at most two identifiers. *)
Theorem analyzeExpenseForPatterns_grows (expense : ExpenseRef)
    (allExpenses : list ExpenseRef) (w w' : World) :
  analyzeExpenseForPatterns calendar uuidSource now expense allExpenses w = Returns w' ->
  objects w' = objects w
  /\ (exists addedPatterns,
        detectedPatterns (detector w') = detectedPatterns (detector w) ++ addedPatterns
        /\ List.length addedPatterns <= 1)
  /\ (exists addedSuggestions,
        suggestions (detector w') = suggestions (detector w) ++ addedSuggestions
        /\ List.length addedSuggestions <= 1)
  /\ drawn w <= drawn w' <= drawn w + 2.
Proof.
  intros H. apply analyzeExpenseForPatterns_outcome in H.
  destruct H as [->|(similar & pattern & _ & _ & _ & _ & H)].
  - split; [reflexivity|]. split; [exists []|split; [exists []|lia]];
      rewrite app_nil_r; auto.
  - assert (Hp : exists added,
               storePattern pattern (detectedPatterns (detector w))
               = detectedPatterns (detector w) ++ added /\ List.length added <= 1).
    { unfold storePattern. destruct (existsb _ _).
      - exists []. rewrite app_nil_r. auto.
      - exists [pattern]. auto. }
    destruct H as [[_ ->]|[_ ->]];
      cbn [objects detector detectedPatterns suggestions drawn];
      (split; [reflexivity|]); (split; [exact Hp|]); (split; [|lia]).
    + exists []. rewrite app_nil_r. auto.
    + eexists. split; [reflexivity|]. simpl. lia.
Qed.

(** X14. An expense already flagged recurring is never suggested. *)
Theorem analyzeExpenseForPatterns_recurring (expense : ExpenseRef)
    (allExpenses : list ExpenseRef) (w w' : World) :
  Expense.isRecurring (objects w expense) = true ->
  analyzeExpenseForPatterns calendar uuidSource now expense allExpenses w = Returns w' ->
  suggestions (detector w') = suggestions (detector w).
Proof.
  intros Hflag H. apply analyzeExpenseForPatterns_outcome in H.
  destruct H as [->|(similar & pattern & _ & _ & _ & _ & [[_ ->]|[Hf _]])];
    [reflexivity | reflexivity | congruence].
Qed.

(** X15. A suggestion that a call adds is for the analysed expense, which
    is not flagged recurring and has a cluster of at least two; it carries
    the confidence of its pattern, above 0.6, and the pattern carries the
    expense's title and category, "Unknown" and "Other" standing in for
    missing ones. *)
Theorem analyzeExpenseForPatterns_suggestion (expense : ExpenseRef)
    (allExpenses : list ExpenseRef) (w w' : World) (s : RecurringSuggestion.t) :
  analyzeExpenseForPatterns calendar uuidSource now expense allExpenses w = Returns w' ->
  suggestions (detector w') = suggestions (detector w) ++ [s] ->
  RecurringSuggestion.expense s = expense
  /\ Expense.isRecurring (objects w expense) = false
  /\ RecurringSuggestion.confidence s
     = RecurringPattern.confidence (RecurringSuggestion.pattern s)
  /\ Double_lt minimumConfidence (RecurringSuggestion.confidence s)
  /\ RecurringPattern.title (RecurringSuggestion.pattern s)
     = coalesce (Expense.title (objects w expense)) "Unknown"%string
  /\ RecurringPattern.category (RecurringSuggestion.pattern s)
     = coalesce (Expense.category (objects w expense)) "Other"%string
  /\ (exists similarExpenses,
        findSimilarExpenses (objects w) expense allExpenses = Returns similarExpenses
        /\ 2 <= List.length similarExpenses).
Proof.
  intros H Hs. apply analyzeExpenseForPatterns_outcome in H.
  destruct H as [->|(similar & pattern & Hsim & Hlen & Hd & _ & [[_ ->]|[Hf ->]])].
  - exfalso. apply (f_equal (@List.length _)) in Hs. rewrite length_app in Hs.
    simpl in Hs. lia.
  - exfalso. cbn [detector suggestions] in Hs.
    apply (f_equal (@List.length _)) in Hs. rewrite length_app in Hs. simpl in Hs. lia.
  - cbn [detector suggestions] in Hs. apply app_inv_head in Hs.
    injection Hs as <-.
    cbn [RecurringSuggestion.expense RecurringSuggestion.confidence
         RecurringSuggestion.pattern].
    apply detectPattern_Some in Hd. cbv zeta in Hd.
    destruct Hd as (intervals & _ & Hconf & _ & ->).
    cbn [RecurringPattern.confidence RecurringPattern.title RecurringPattern.category].
    repeat (split; [first [reflexivity | assumption]|]). eauto.
Qed.

End Analysis.

Lemma analyzeExpenseForPatterns_grows_witness :
  objects (mkWorld Scenario.heap
             (mkDetector [Scenario.pattern] [Scenario.suggestion]) 2)
  = objects Scenario.world.
Proof.
  refine (proj1 (analyzeExpenseForPatterns_grows GregorianUTC.calendar
                   Scenario.uuidSource Scenario.now 2 [0; 1] Scenario.world _ _)).
  vm_compute. reflexivity.
Defined.

Lemma analyzeExpenseForPatterns_recurring_witness :
  suggestions
    (detector (mkWorld (objects (markAsRecurring 2 Scenario.world))
                 (mkDetector [Scenario.pattern] []) 1))
  = suggestions (detector (markAsRecurring 2 Scenario.world)).
Proof.
  apply (analyzeExpenseForPatterns_recurring GregorianUTC.calendar
           Scenario.uuidSource Scenario.now 2 [0; 1]
           (markAsRecurring 2 Scenario.world)).
  - reflexivity.
  - vm_compute. reflexivity.
Defined.

Lemma analyzeExpenseForPatterns_suggestion_witness :
  RecurringSuggestion.expense Scenario.suggestion = 2.
Proof.
  refine (proj1 (analyzeExpenseForPatterns_suggestion GregorianUTC.calendar
                   Scenario.uuidSource Scenario.now 2 [0; 1] Scenario.world
                   (mkWorld Scenario.heap
                      (mkDetector [Scenario.pattern] [Scenario.suggestion]) 2)
                   Scenario.suggestion _ _)).
  - vm_compute. reflexivity.
  - reflexivity.
Defined.

(** ** Identifiers *)

Lemma NoDup_app_fresh {A : Type} (l1 l2 : list A) (x y : A) :
  NoDup (l1 ++ l2) -> ~ In x (l1 ++ l2) -> ~ In y (l1 ++ l2) -> x <> y ->
  NoDup ((l1 ++ [x]) ++ l2) /\ NoDup ((l1 ++ [x]) ++ l2 ++ [y]).
Proof.
  intros Hnd Hx Hy Hxy.
  assert (H1 : NoDup ((l1 ++ [x]) ++ l2)).
  { apply (Permutation_NoDup (l := x :: l1 ++ l2)); [|now constructor].
    rewrite <- app_assoc. apply Permutation_middle. }
  split; [exact H1|].
  rewrite app_assoc.
  apply (Permutation_NoDup (l := y :: (l1 ++ [x]) ++ l2));
    [apply Permutation_cons_append|].
  constructor; [|exact H1].
  intros Hin. rewrite <- app_assoc in Hin. apply in_elt_inv in Hin.
  destruct Hin as [Hin|Hin]; [now symmetry in Hin|contradiction].
Qed.

Lemma in_map_filter {A B : Type} (g : A -> B) (f : A -> bool) (l : list A) (u : B) :
  In u (map g (filter f l)) -> In u (map g l).
Proof.
  intros Hu. apply in_map_iff in Hu. destruct Hu as (s & <- & Hin).
  apply filter_In in Hin. apply in_map. tauto.
Qed.

Lemma NoDup_app_filter_map {A B : Type} (g : A -> B) (f : A -> bool)
    (l1 : list B) (l : list A) :
  NoDup (l1 ++ map g l) -> NoDup (l1 ++ map g (filter f l)).
Proof.
  induction l as [|a l IH]; intros H; [exact H|].
  cbn [map filter] in *. apply NoDup_remove in H. destruct H as [Hnd Hnot].
  destruct (f a); [|auto]. cbn [map].
  apply (Permutation_NoDup (l := g a :: l1 ++ map g (filter f l)));
    [apply Permutation_middle|].
  constructor; [|auto].
  intros Hin. apply Hnot. apply in_app_or in Hin. apply in_or_app.
  destruct Hin as [Hin|Hin]; [now left|right; now apply in_map_filter in Hin].
Qed.

Lemma storedIdentifiers_sub (d d' : RecurringExpenseDetector) :
  detectedPatterns d' = detectedPatterns d ->
  (exists f, suggestions d' = filter f (suggestions d)) ->
  NoDup (storedIdentifiers d) ->
  NoDup (storedIdentifiers d')
  /\ (forall u, In u (storedIdentifiers d') -> In u (storedIdentifiers d)).
Proof.
  intros Hp [f Hs] Hnd. unfold storedIdentifiers in *. rewrite Hp, Hs.
  split; [now apply NoDup_app_filter_map|].
  intros u Hu. apply in_app_or in Hu. apply in_or_app.
  destruct Hu as [Hu|Hu]; [now left|right; now apply in_map_filter in Hu].
Qed.

Lemma removeAll_one {A : Type} (f : A -> bool) (l : list A) (x : A) :
  In x l -> f x = true -> (forall y, In y l -> f y = true -> y = x) ->
  NoDup l ->
  S (List.length (removeAll f l)) = List.length l.
Proof.
  unfold removeAll. induction l as [|y l IH]; intros Hin Hfx Huniq Hnd;
    [contradiction|].
  apply NoDup_cons_iff in Hnd. destruct Hnd as [Hy Hl]. cbn [filter].
  destruct Hin as [->|Hin].
  - rewrite Hfx. cbn [negb List.length]. f_equal.
    f_equal. apply (removeAll_none f).
    intros z Hz. destruct (f z) eqn:E; [|reflexivity].
    assert (z = x) by (apply Huniq; [now right|assumption]). subst. contradiction.
  - destruct (f y) eqn:E.
    + assert (y = x) by (apply Huniq; [now left|assumption]). subst. contradiction.
    + cbn [negb List.length]. f_equal. apply IH; auto.
      intros z Hz. apply Huniq. now right.
Qed.

Lemma identifiersFresh_empty (uuidSource : nat -> UUID) (heap : Store) (n : nat) :
  identifiersFresh uuidSource (mkWorld heap (mkDetector [] []) n).
Proof. split; [constructor | intros u []]. Qed.

Section Identifiers.

Variable calendar : Calendar.
Variable uuidSource : nat -> UUID.
Variable now : Date.
Hypothesis uuidSource_fresh : forall i j, uuidSource i = uuidSource j -> i = j.

Lemma storePattern_fresh (w : World) (pattern : RecurringPattern.t) :
  identifiersFresh uuidSource w ->
  RecurringPattern.id pattern = uuidSource (drawn w) ->
  storePattern pattern (detectedPatterns (detector w))
  = detectedPatterns (detector w) ++ [pattern].
Proof.
  intros [_ Hbelow] Hid. unfold storePattern.
  destruct (existsb _ _) eqn:E; [|reflexivity].
  apply existsb_exists in E. destruct E as (p & Hp & Heq).
  apply N.eqb_eq in Heq.
  destruct (Hbelow (RecurringPattern.id p)) as (k & Hk & Hu).
  { unfold storedIdentifiers. apply in_or_app. left. now apply in_map. }
  rewrite Heq, Hid in Hu. apply uuidSource_fresh in Hu. lia.
Qed.

(** X16. With an identifier source that never repeats, a call keeps the
    stored identifiers, of patterns and suggestions alike, pairwise distinct
    and drawn from the source. *)
Theorem analyzeExpenseForPatterns_identifiersFresh (expense : ExpenseRef)
    (allExpenses : list ExpenseRef) (w w' : World) :
  identifiersFresh uuidSource w ->
  analyzeExpenseForPatterns calendar uuidSource now expense allExpenses w = Returns w' ->
  identifiersFresh uuidSource w'.
Proof.
  intros Hfresh H. apply analyzeExpenseForPatterns_outcome in H.
  destruct H as [->|(similar & pattern & _ & _ & _ & Hid & H)]; [exact Hfresh|].
  rewrite (storePattern_fresh w pattern Hfresh Hid) in H.
  destruct Hfresh as [Hnd Hbelow]. unfold storedIdentifiers in *.
  assert (Hnew : forall k, drawn w <= k ->
                   ~ In (uuidSource k)
                       (map RecurringPattern.id (detectedPatterns (detector w))
                        ++ map RecurringSuggestion.id (suggestions (detector w)))).
  { intros k Hk Hin. destruct (Hbelow _ Hin) as (j & Hj & Hu).
    apply uuidSource_fresh in Hu. lia. }
  destruct (NoDup_app_fresh _ _ (uuidSource (drawn w)) (uuidSource (S (drawn w)))
              Hnd (Hnew _ (Nat.le_refl _)) (Hnew _ (Nat.le_succ_diag_r _)))
    as [Hnd1 Hnd2].
  { intros E. apply uuidSource_fresh in E. lia. }
  destruct H as [[_ ->]|[_ ->]]; unfold identifiersFresh, storedIdentifiers;
    cbn [detector detectedPatterns suggestions drawn];
    rewrite ?map_app; cbn [map]; rewrite Hid; cbn [RecurringSuggestion.id].
  - split; [exact Hnd1|]. intros u Hu.
    rewrite <- app_assoc in Hu. cbn [app] in Hu. apply in_elt_inv in Hu.
    destruct Hu as [->|Hu]; [exists (drawn w); split; [lia|reflexivity]|].
    destruct (Hbelow u Hu) as (k & Hk & ->). exists k. split; [lia|reflexivity].
  - split; [exact Hnd2|]. intros u Hu.
    rewrite app_assoc in Hu. apply in_app_or in Hu.
    destruct Hu as [Hu|[<-|[]]]; [|exists (S (drawn w)); split; [lia|reflexivity]].
    rewrite <- app_assoc in Hu. cbn [app] in Hu. apply in_elt_inv in Hu.
    destruct Hu as [->|Hu]; [exists (drawn w); split; [lia|reflexivity]|].
    destruct (Hbelow u Hu) as (k & Hk & ->). exists k. split; [lia|reflexivity].
Qed.

(** X17. Under that invariant the look-up by identifier never finds a
    stored pattern: every pattern the builder returns is stored as a further
    pattern, whatever is stored already. *)
Theorem analyzeExpenseForPatterns_stores_every_pattern (expense : ExpenseRef)
    (allExpenses similarExpenses : list ExpenseRef) (w w1 : World)
    (pattern : RecurringPattern.t) :
  identifiersFresh uuidSource w ->
  findSimilarExpenses (objects w) expense allExpenses = Returns similarExpenses ->
  2 <= List.length similarExpenses ->
  detectPattern calendar uuidSource now w expense similarExpenses
  = Returns (Some pattern, w1) ->
  exists w',
    analyzeExpenseForPatterns calendar uuidSource now expense allExpenses w = Returns w'
    /\ detectedPatterns (detector w') = detectedPatterns (detector w) ++ [pattern].
Proof.
  intros Hfresh Hsim Hlen Hd.
  pose proof (detectPattern_Some _ _ _ _ _ _ _ _ Hd) as Hp. cbv zeta in Hp.
  destruct Hp as (intervals & _ & _ & -> & Hp).
  assert (Hid : RecurringPattern.id pattern = uuidSource (drawn w)) by now rewrite Hp.
  pose proof (storePattern_fresh w pattern Hfresh Hid) as Hstore.
  unfold storePattern in Hstore.
  unfold analyzeExpenseForPatterns. rewrite Hsim. cbn [bind].
  destruct (Nat.leb_spec 2 (List.length similarExpenses)); [|lia].
  rewrite Hd. cbn [bind newUUID snd objects detector drawn].
  destruct (negb _); eexists; (split; [reflexivity|]);
    cbn [detector detectedPatterns]; exact Hstore.
Qed.

End Identifiers.

Lemma analyzeExpenseForPatterns_identifiersFresh_witness :
  identifiersFresh Scenario.uuidSource
    (mkWorld Scenario.heap (mkDetector [Scenario.pattern] [Scenario.suggestion]) 2).
Proof.
  apply (analyzeExpenseForPatterns_identifiersFresh GregorianUTC.calendar
           Scenario.uuidSource Scenario.now Nat2N.inj 2 [0; 1] Scenario.world).
  - split; [constructor | intros u []].
  - vm_compute. reflexivity.
Defined.

Lemma analyzeExpenseForPatterns_stores_every_pattern_witness :
  exists w',
    Scenario.analyze 2 [0; 1] Scenario.world = Returns w'
    /\ detectedPatterns (detector w')
       = detectedPatterns (detector Scenario.world) ++ [Scenario.pattern].
Proof.
  apply (analyzeExpenseForPatterns_stores_every_pattern GregorianUTC.calendar
           Scenario.uuidSource Scenario.now Nat2N.inj 2 [0; 1] [0; 1] Scenario.world
           (snd (newUUID Scenario.uuidSource Scenario.world)) Scenario.pattern).
  - split; [constructor | intros u []].
  - vm_compute. reflexivity.
  - simpl. lia.
  - vm_compute. reflexivity.
Defined.

(** X18. Dismissal and promotion keep the stored identifiers pairwise
    distinct and drawn from the source. *)
Theorem identifiersFresh_kept (uuidSource : nat -> UUID) (w : World)
    (suggestion : RecurringSuggestion.t) (expense : ExpenseRef) :
  identifiersFresh uuidSource w ->
  identifiersFresh uuidSource (afterDismissal suggestion w)
  /\ identifiersFresh uuidSource (markAsRecurring expense w).
Proof.
  intros [Hnd Hbelow]. split.
  - destruct (storedIdentifiers_sub (detector w)
                (detector (afterDismissal suggestion w)))
      as [H1 H2]; [reflexivity | eexists; reflexivity | exact Hnd |].
    split; [exact H1|]. intros u Hu. apply Hbelow. auto.
  - destruct (storedIdentifiers_sub (detector w)
                (detector (markAsRecurring expense w)))
      as [H1 H2]; [reflexivity | eexists; reflexivity | exact Hnd |].
    split; [exact H1|]. intros u Hu. apply Hbelow. auto.
Qed.

(** After two analyses the registry holds two patterns and two
    suggestions.  Dismissing the first suggestion leaves the second, and
    promoting the fourth occurrence leaves the first; the identifiers that
    remain are still distinct. *)
Lemma identifiersFresh_kept_witness :
  (w <- Scenario.analyze 2 [0; 1] Scenario.world ;;
   Scenario.analyze 3 [0; 1; 2] w) = Returns Twice.world
  /\ suggestions (detector (afterDismissal Scenario.suggestion Twice.world))
     = [Twice.suggestion]
  /\ suggestions (detector (markAsRecurring 3 Twice.world)) = [Scenario.suggestion]
  /\ identifiersFresh Scenario.uuidSource
       (afterDismissal Scenario.suggestion Twice.world)
  /\ identifiersFresh Scenario.uuidSource (markAsRecurring 3 Twice.world).
Proof.
  split; [vm_compute; reflexivity|].
  split; [reflexivity|]. split; [reflexivity|].
  apply (identifiersFresh_kept Scenario.uuidSource Twice.world
           Scenario.suggestion 3).
  split.
  - vm_compute. repeat constructor; simpl; intuition discriminate.
  - intros u [<-|[<-|[<-|[<-|[]]]]];
      [exists 0|exists 2|exists 1|exists 3]; (split; [simpl; lia|reflexivity]).
Defined.

(** X19. With distinct identifiers, dismissing a stored suggestion removes
    that suggestion and no other. *)
Theorem dismissSuggestion_removes_one (uuidSource : nat -> UUID) (w : World)
    (suggestion : RecurringSuggestion.t) :
  identifiersFresh uuidSource w ->
  In suggestion (suggestions (detector w)) ->
  ~ In suggestion (suggestions (dismissSuggestion suggestion (detector w)))
  /\ S (List.length (suggestions (dismissSuggestion suggestion (detector w))))
     = List.length (suggestions (detector w))
  /\ (forall s, In s (suggestions (detector w)) -> s <> suggestion ->
                In s (suggestions (dismissSuggestion suggestion (detector w)))).
Proof.
  intros [Hnd _] Hin. unfold storedIdentifiers in Hnd.
  apply NoDup_app_remove_l in Hnd.
  assert (Huniq : forall s, In s (suggestions (detector w)) ->
                    RecurringSuggestion.id s = RecurringSuggestion.id suggestion ->
                    s = suggestion).
  { clear -Hnd Hin. induction (suggestions (detector w)) as [|y l IH]; [contradiction|].
    cbn [map] in Hnd. apply NoDup_cons_iff in Hnd. destruct Hnd as [Hy Hl].
    intros s Hs E. destruct Hin as [->|Hin], Hs as [->|Hs]; auto.
    - exfalso. apply Hy. rewrite <- E. now apply in_map.
    - exfalso. apply Hy. rewrite E. now apply in_map. }
  unfold dismissSuggestion. cbn [suggestions]. repeat split.
  - intros H. apply removeAll_In in H. destruct H as [_ H].
    now rewrite N.eqb_refl in H.
  - apply removeAll_one with (x := suggestion); auto.
    + apply N.eqb_refl.
    + intros y Hy E. apply Huniq; [assumption|]. now apply N.eqb_eq.
    + now apply NoDup_map_inv in Hnd.
  - intros s Hs Hne. apply removeAll_In. split; [assumption|].
    apply N.eqb_neq. intros E. apply Hne. now apply Huniq.
Qed.

Lemma dismissSuggestion_removes_one_witness :
  S (List.length
       (suggestions
          (dismissSuggestion Scenario.suggestion
             (mkDetector [Scenario.pattern] [Scenario.suggestion]))))
  = List.length [Scenario.suggestion].
Proof.
  refine (proj1 (proj2 (dismissSuggestion_removes_one Scenario.uuidSource
                          (mkWorld Scenario.heap
                             (mkDetector [Scenario.pattern] [Scenario.suggestion]) 2)
                          Scenario.suggestion _ _))).
  - split.
    + vm_compute. repeat constructor; simpl; intuition discriminate.
    + intros u [<-|[<-|[]]]; [exists 0|exists 1]; (split; [simpl; lia|reflexivity]).
  - now left.
Defined.

(** ** Promotion, dismissal and the callers *)

Lemma markAsRecurring_id (expense r : ExpenseRef) (w : World) :
  Expense.id (objects (markAsRecurring expense w) r) = Expense.id (objects w r).
Proof.
  unfold markAsRecurring. cbn [objects]. destruct (r =? expense); reflexivity.
Qed.

Lemma markAsRecurring_no_suggestion (expense : ExpenseRef) (w : World)
    (s : RecurringSuggestion.t) :
  In s (suggestions (detector (markAsRecurring expense w))) ->
  RecurringSuggestion.expense s <> expense.
Proof.
  unfold markAsRecurring. cbn [detector suggestions]. intros Hs E.
  apply removeAll_In in Hs. destruct Hs as [_ Hs].
  rewrite E, optional_eqb_N_refl in Hs. discriminate.
Qed.

Lemma markAsRecurring_flag (expense : ExpenseRef) (w : World) :
  Expense.isRecurring (objects (markAsRecurring expense w) expense) = true.
Proof. unfold markAsRecurring. cbn [objects]. now rewrite Nat.eqb_refl. Qed.

(** X20. Once promoted, an expense is not suggested again: analysing it
    after [markAsRecurring] leaves it out of the suggested expenses, and it
    stays flagged. *)
Theorem markAsRecurring_then_analysis (calendar : Calendar)
    (uuidSource : nat -> UUID) (now : Date) (expense : ExpenseRef)
    (allExpenses expenses : list ExpenseRef) (w w' : World) :
  analyzeExpenseForPatterns calendar uuidSource now expense allExpenses
    (markAsRecurring expense w) = Returns w' ->
  ~ In expense (getSuggestedRecurring (detector w') expenses)
  /\ Expense.isRecurring (objects w' expense) = true.
Proof.
  intros H. apply analyzeExpenseForPatterns_outcome in H.
  assert (Hnone : ~ In expense
                      (map RecurringSuggestion.expense
                         (suggestions (detector (markAsRecurring expense w))))).
  { intros Hin. apply in_map_iff in Hin. destruct Hin as (s & E & Hs).
    now apply markAsRecurring_no_suggestion in Hs. }
  pose proof (markAsRecurring_flag expense w) as Hflag.
  unfold getSuggestedRecurring.
  destruct H as [->|(similar & pattern & _ & _ & _ & _ & [[_ ->]|[Hf _]])].
  - split; assumption.
  - cbn [detector suggestions objects]. split; assumption.
  - congruence.
Qed.

Lemma markAsRecurring_then_analysis_witness :
  ~ In 2 (getSuggestedRecurring
            (detector (mkWorld (objects (markAsRecurring 2 Scenario.world))
                         (mkDetector [Scenario.pattern] []) 1))
            [0; 1; 2])
  /\ Expense.isRecurring
       (objects (mkWorld (objects (markAsRecurring 2 Scenario.world))
                   (mkDetector [Scenario.pattern] []) 1) 2)
     = true.
Proof.
  apply (markAsRecurring_then_analysis GregorianUTC.calendar Scenario.uuidSource
           Scenario.now 2 [0; 1] [0; 1; 2] Scenario.world).
  vm_compute. reflexivity.
Defined.

Lemma removeAll_ext {A : Type} (f g : A -> bool) (l : list A) :
  (forall x, f x = g x) -> removeAll f l = removeAll g l.
Proof.
  intros H. unfold removeAll. apply filter_ext. intros x. now rewrite H.
Qed.

Lemma removeAll_comm {A : Type} (f g : A -> bool) (l : list A) :
  removeAll f (removeAll g l) = removeAll g (removeAll f l).
Proof.
  unfold removeAll. induction l as [|x l IH]; [reflexivity|].
  cbn [filter]. destruct (negb (g x)) eqn:Eg, (negb (f x)) eqn:Ef; cbn [filter];
    rewrite ?Eg, ?Ef, IH; reflexivity.
Qed.

(** X21. [markAsRecurring] is idempotent, and it commutes with dismissal
    and with the promotion of another expense: the order of the user's
    actions does not matter to what stays stored. *)
Theorem markAsRecurring_composes (expense other : ExpenseRef)
    (suggestion : RecurringSuggestion.t) (w : World) :
  detector (markAsRecurring expense (markAsRecurring expense w))
  = detector (markAsRecurring expense w)
  /\ (forall r, objects (markAsRecurring expense (markAsRecurring expense w)) r
                = objects (markAsRecurring expense w) r)
  /\ detector (markAsRecurring expense (afterDismissal suggestion w))
     = detector (afterDismissal suggestion (markAsRecurring expense w))
  /\ detector (markAsRecurring expense (markAsRecurring other w))
     = detector (markAsRecurring other (markAsRecurring expense w))
  /\ (forall r, objects (markAsRecurring expense (markAsRecurring other w)) r
                = objects (markAsRecurring other (markAsRecurring expense w)) r).
Proof.
  assert (Hpred : forall e e' s,
            optional_eqb N.eqb
              (Expense.id (objects (markAsRecurring e' w) (RecurringSuggestion.expense s)))
              (Expense.id (objects (markAsRecurring e' w) e))
            = optional_eqb N.eqb
                (Expense.id (objects w (RecurringSuggestion.expense s)))
                (Expense.id (objects w e)))
    by (intros; now rewrite !markAsRecurring_id).
  split; [|split; [|split; [|split]]].
  - unfold markAsRecurring at 1. cbn [detector detectedPatterns suggestions].
    rewrite (removeAll_ext _ _ _ (Hpred expense expense)).
    unfold markAsRecurring. cbn [detector detectedPatterns suggestions].
    now rewrite removeAll_idempotent.
  - intros r. unfold markAsRecurring. cbn [objects].
    destruct (r =? expense); reflexivity.
  - unfold markAsRecurring, afterDismissal, dismissSuggestion.
    cbn [detector detectedPatterns suggestions objects].
    now rewrite removeAll_comm.
  - unfold markAsRecurring at 1 3. cbn [detector detectedPatterns suggestions].
    rewrite (removeAll_ext _ _ _ (Hpred expense other)),
      (removeAll_ext _ _ _ (Hpred other expense)).
    unfold markAsRecurring. cbn [detector detectedPatterns suggestions].
    now rewrite removeAll_comm.
  - intros r. unfold markAsRecurring. cbn [objects].
    destruct (r =? expense), (r =? other); reflexivity.
Qed.

(** X22. In the view model, a promoted expense of the list appears among
    the recurring expenses and not among the suggested ones; for every other
    expense, being among the recurring expenses is unchanged. *)
Theorem markAsRecurring_in_view_model (expenses : list ExpenseRef)
    (expense : ExpenseRef) (w : World) :
  In expense expenses ->
  In expense (getRecurringExpenses expenses (markAsRecurring expense w))
  /\ ~ In expense (getSuggestedRecurringExpenses expenses (markAsRecurring expense w))
  /\ (forall other, other <> expense ->
        (In other (getRecurringExpenses expenses (markAsRecurring expense w))
         <-> In other (getRecurringExpenses expenses w))).
Proof.
  intros Hin. unfold getRecurringExpenses, getSuggestedRecurringExpenses,
    getSuggestedRecurring.
  split; [|split].
  - apply filter_In. split; [assumption|apply markAsRecurring_flag].
  - intros H. apply in_map_iff in H. destruct H as (s & E & Hs).
    now apply markAsRecurring_no_suggestion in Hs.
  - intros other Hother. rewrite !filter_In.
    unfold markAsRecurring. cbn [objects].
    apply Nat.eqb_neq in Hother. now rewrite Hother.
Qed.

Lemma markAsRecurring_in_view_model_witness :
  In 2 (getRecurringExpenses [0; 1; 2] (markAsRecurring 2 Scenario.world))
  /\ ~ In 2 (getSuggestedRecurringExpenses [0; 1; 2]
               (markAsRecurring 2 Scenario.world))
  /\ (forall other, other <> 2 ->
        (In other (getRecurringExpenses [0; 1; 2] (markAsRecurring 2 Scenario.world))
         <-> In other (getRecurringExpenses [0; 1; 2] Scenario.world))).
Proof.
  apply (markAsRecurring_in_view_model [0; 1; 2] 2 Scenario.world).
  simpl. auto.
Defined.

(** X23. Promoting an expense that no stored suggestion refers to changes
    nothing in the detector: only the expense's flag is set. *)
Theorem markAsRecurring_unknown (expense : ExpenseRef) (w : World) :
  (forall s, In s (suggestions (detector w)) ->
             sameIdentifier (objects w) (RecurringSuggestion.expense s) expense = false) ->
  detector (markAsRecurring expense w) = detector w
  /\ Expense.isRecurring (objects (markAsRecurring expense w) expense) = true.
Proof.
  intros H. split; [|apply markAsRecurring_flag].
  unfold markAsRecurring. cbn [detector].
  rewrite removeAll_none; [now destruct (detector w)|].
  intros s Hs. exact (H s Hs).
Qed.

Lemma markAsRecurring_unknown_witness :
  detector (markAsRecurring 3
              (mkWorld Scenario.heap
                 (mkDetector [Scenario.pattern] [Scenario.suggestion]) 2))
  = mkDetector [Scenario.pattern] [Scenario.suggestion]
  /\ Expense.isRecurring
       (objects (markAsRecurring 3
                   (mkWorld Scenario.heap
                      (mkDetector [Scenario.pattern] [Scenario.suggestion]) 2)) 3)
     = true.
Proof.
  apply (markAsRecurring_unknown 3
           (mkWorld Scenario.heap
              (mkDetector [Scenario.pattern] [Scenario.suggestion]) 2)).
  intros s [<-|[]]. reflexivity.
Defined.

(** ** Gaps *)

Lemma intervalsFrom_length (heap : Store) (previous : ExpenseRef)
    (rest : list ExpenseRef) :
  (forall e, In e (previous :: rest) -> Expense.date (heap e) <> None) ->
  List.length (intervalsFrom heap previous rest) = List.length rest.
Proof.
  revert previous. induction rest as [|current rest IH]; intros previous H;
    [reflexivity|].
  cbn [intervalsFrom]. unfold dateOf.
  pose proof (H previous (or_introl eq_refl)) as Hp.
  pose proof (H current (or_intror (or_introl eq_refl))) as Hc.
  destruct (Expense.date (heap previous)); [|contradiction].
  destruct (Expense.date (heap current)); [|contradiction].
  cbn [List.length]. f_equal. apply IH. intros e He. apply H. now right.
Qed.

(** X24. On a non-empty list of dated expenses [calculateIntervals] returns
    one gap for each pair of neighbours; on an empty list its range traps,
    which [detectPattern] never lets happen. *)
Theorem calculateIntervals_count (heap : Store) (expenses : list ExpenseRef) :
  expenses <> [] ->
  (forall e, In e expenses -> Expense.date (heap e) <> None) ->
  exists intervals,
    calculateIntervals heap expenses = Returns intervals
    /\ S (List.length intervals) = List.length expenses.
Proof.
  intros Hne Hdates. destruct expenses as [|first rest]; [contradiction|].
  eexists. split; [reflexivity|].
  cbn [List.length]. f_equal. now apply intervalsFrom_length.
Qed.

Lemma calculateIntervals_count_witness :
  exists intervals,
    calculateIntervals Scenario.heap [0; 1; 2] = Returns intervals
    /\ S (List.length intervals) = List.length [0; 1; 2].
Proof.
  apply (calculateIntervals_count Scenario.heap [0; 1; 2]).
  - discriminate.
  - intros e [<-|[<-|[<-|[]]]]; discriminate.
Defined.

(** ** Traps *)

(** X25. The two ranges that can trap, [1...m] in [levenshteinDistance] on
    an empty string and [1..<count] in [calculateIntervals] on an empty
    list, are never reached from [analyzeExpenseForPatterns]: whatever the
    expenses and the history, the call returns. *)
Theorem detector_never_traps :
  (forall str1 str2,
     levenshteinDistance str1 str2 = Traps
     <-> String.length str1 = 0 \/ String.length str2 = 0)
  /\ (forall heap, calculateIntervals heap [] = Traps)
  /\ (forall expense1 expense2,
        exists similarity, calculateSimilarity expense1 expense2 = Returns similarity)
  /\ (forall calendar uuidSource now expense allExpenses w,
        exists w',
          analyzeExpenseForPatterns calendar uuidSource now expense allExpenses w
          = Returns w').
Proof.
  split; [|split; [reflexivity|split]].
  - intros str1 str2. unfold levenshteinDistance.
    rewrite !length_list_ascii_of_string.
    destruct (Nat.eqb_spec (String.length str1) 0),
      (Nat.eqb_spec (String.length str2) 0);
      cbn [orb]; split; auto; try discriminate; intros [?|?]; contradiction.
  - apply calculateSimilarity_returns.
  - apply analyzeExpenseForPatterns_returns.
Qed.
